(** * Resume coach: a shallow embedding of [resume_coach/agent.py] and
    [resume_coach/llm.py], and the properties of the heuristic pipeline.

    Python values are modelled as follows.
    - [str] is a list of Unicode code points ([N]); [len] is [length].
    - the dicts built by [parse_resume], [parse_jd] and
      [suggest_resume_updates] are records; a key read with [.get(k, [])]
      that is absent is the empty list, a summary or title that is absent
      is the empty string.
    - Python [int]s ([n], [max_suggestions], the HTTP status) are [Z].
    - the two Unicode tables the code reaches through [str.lower] and the
      regex class [\d] are fields of the class [UnicodeData]; the
      theorems hold for every instance that agrees with ASCII on ASCII. *)

From Stdlib Require Import ZArith NArith List String Ascii DecimalString Lia.
From Stdlib Require Import Floats.
From stdpp Require Import base list gmap sorting.
From Equations Require Import Equations.

Local Open Scope N_scope.
#[local] Set Warnings "-inexact-float".

(** ** Python [str] primitives *)

Module Py.

(** A code point, and a string. *)
Abbreviation char := N (only parsing).
Abbreviation str := (list N) (only parsing).

(** A literal: the code points of an ASCII string. *)
Definition py (x : string) : str := map N_of_ascii (list_ascii_of_string x).
Arguments py x%_string : simpl never.

(** [str.isspace] on one code point (CPython's [_PyUnicode_IsWhitespace]). *)
Definition isspace (c : char) : bool :=
  ((0x09 <=? c) && (c <=? 0x0D)) || ((0x1C <=? c) && (c <=? 0x20))
  || (c =? 0x85) || (c =? 0xA0) || (c =? 0x1680)
  || ((0x2000 <=? c) && (c <=? 0x200A))
  || (c =? 0x2028) || (c =? 0x2029) || (c =? 0x202F) || (c =? 0x205F)
  || (c =? 0x3000).

(** The line boundaries of [str.splitlines]. *)
Definition is_linebreak (c : char) : bool :=
  ((0x0A <=? c) && (c <=? 0x0D)) || ((0x1C <=? c) && (c <=? 0x1E))
  || (c =? 0x85) || (c =? 0x2028) || (c =? 0x2029).

Definition mem (c : char) (cs : str) : bool := existsb (N.eqb c) cs.

Fixpoint lstrip_by (p : char -> bool) (s : str) : str :=
  match s with
  | c :: rest => if p c then lstrip_by p rest else s
  | [] => []
  end.

Definition rstrip_by (p : char -> bool) (s : str) : str :=
  rev (lstrip_by p (rev s)).

(** [s.strip()], [s.lstrip(chars)] and [s.strip(chars)]. *)
Definition strip (s : str) : str := rstrip_by isspace (lstrip_by isspace s).
Definition lstrip_chars (cs : str) (s : str) : str :=
  lstrip_by (fun c => mem c cs) s.
Definition strip_chars (cs : str) (s : str) : str :=
  rstrip_by (fun c => mem c cs) (lstrip_by (fun c => mem c cs) s).

(** [s.splitlines()]: CR LF is one boundary, and a final boundary opens no
    empty last line. *)
Fixpoint splitlines (s : str) : list str :=
  match s with
  | [] => []
  | c :: rest =>
    if is_linebreak c then
      match rest with
      | c' :: rest' =>
        if (c =? 0x0D) && (c' =? 0x0A) then [] :: splitlines rest'
        else [] :: splitlines rest
      | [] => [[]]
      end
    else
      match splitlines rest with
      | [] => [[c]]
      | l :: ls => (c :: l) :: ls
      end
  end.

(** [s.split()]: the maximal runs of non-whitespace. *)
Fixpoint split_ws_go (cur : str) (s : str) : list str :=
  match s with
  | [] => match cur with [] => [] | _ => [rev cur] end
  | c :: rest =>
    if isspace c then
      match cur with
      | [] => split_ws_go [] rest
      | _ => rev cur :: split_ws_go [] rest
      end
    else split_ws_go (c :: cur) rest
  end.
Definition split_ws (s : str) : list str := split_ws_go [] s.

(** [re.split(r'[;,|]', s)] for a one-character class [seps]: the pieces
    between separators, empty pieces included. *)
Fixpoint split_on (seps : str) (s : str) : list str :=
  match s with
  | [] => [[]]
  | c :: rest =>
    if mem c seps then [] :: split_on seps rest
    else
      match split_on seps rest with
      | [] => [[c]]
      | l :: ls => (c :: l) :: ls
      end
  end.

(** [sep.join(parts)]. *)
Fixpoint join (sep : str) (parts : list str) : str :=
  match parts with
  | [] => []
  | [p] => p
  | p :: ps => p ++ sep ++ join sep ps
  end.

(** [s.startswith(p)] and, when it holds, what follows the prefix. *)
Fixpoint after_prefix (p s : str) : option str :=
  match p, s with
  | [], _ => Some s
  | a :: p', b :: s' => if a =? b then after_prefix p' s' else None
  | _ :: _, [] => None
  end.
Definition startswith (p s : str) : bool :=
  match after_prefix p s with Some _ => true | None => false end.

(** [p in s]: [p] is a substring of [s]. *)
Fixpoint contains (p s : str) : bool :=
  startswith p s ||
  match s with
  | [] => false
  | _ :: rest => contains p rest
  end.

(** [l[:n]] for a Python [int] [n]: a negative bound counts from the end. *)
Definition slice_to {A} (l : list A) (n : Z) : list A :=
  if (0 <=? n)%Z then take (Z.to_nat n) l
  else take (Z.to_nat (Z.of_nat (length l) + n)) l.

(** Lexicographic order on code points: Python's [<=] on [str]. *)
Fixpoint str_leb (a b : str) : bool :=
  match a, b with
  | [], _ => true
  | _ :: _, [] => false
  | x :: a', y :: b' => (x <? y) || ((x =? y) && str_leb a' b')
  end.
Definition str_le (a b : str) : Prop := str_leb a b = true.
Definition str_lt (a b : str) : Prop := str_le a b /\ a <> b.

#[global] Instance str_le_dec : RelDecision str_le.
Proof. intros a b. unfold str_le. apply _. Defined.

(** [str(n)] for an [int]. *)
Definition str_of_Z (z : Z) : str :=
  py (DecimalString.NilZero.string_of_int (Z.to_int z)).

(** [s.replace(old, new)]: the occurrences of [old] are found left to
    right and do not overlap; after one, the scan resumes behind it
    ([skip] counts the characters of the occurrence still to pass). An
    empty [old] puts [new] before every character and at the end. *)
Fixpoint replace_go (old new : str) (skip : nat) (s : str) : str :=
  match s with
  | [] => []
  | c :: rest =>
    match skip with
    | S k => replace_go old new k rest
    | O =>
      if startswith old s
      then new ++ replace_go old new (length old - 1) rest
      else c :: replace_go old new 0 rest
    end
  end.

Definition replace (old new s : str) : str :=
  match old with
  | [] => new ++ flat_map (fun c => c :: new) s
  | _ :: _ => replace_go old new 0 s
  end.

(** ASCII case mapping and ASCII digits: what [str.lower] and [\d] are on
    code points below 128. *)
Definition ascii_lower_char (c : char) : char :=
  if (0x41 <=? c) && (c <=? 0x5A) then c + 32 else c.
Definition ascii_lower (s : str) : str := map ascii_lower_char s.
Definition ascii_isdigit (c : char) : bool := (0x30 <=? c) && (c <=? 0x39).
Definition is_ascii (s : str) : Prop := Forall (fun c => c < 128) s.

(** The Unicode data the code depends on: [str.lower] (case mapping is
    neither per character nor length preserving in general) and the
    decimal digits matched by [\d]. *)
Class UnicodeData := {
  lower : str -> str;
  isdecimal : char -> bool;
  lower_ascii : forall s, is_ascii s -> lower s = ascii_lower s;
  isdecimal_ascii : forall c, c < 128 -> isdecimal c = ascii_isdigit c
}.

End Py.
Import Py.

(** The instance for text that is ASCII throughout. *)
#[global, refine] Instance ascii_data : UnicodeData :=
  {| lower := ascii_lower; isdecimal := ascii_isdigit |}.
Proof. all: reflexivity. Defined.

(** ** Floating point: the score of [match_and_score]

    Python floats are IEEE binary64, which are Rocq's primitive floats. *)

Definition float_of_nat (k : nat) : float :=
  PrimFloat.of_uint63 (Uint63.of_Z (Z.of_nat k)).

(** The integer nearest to [a / b] for [b > 0], ties to even. *)
Definition round_half_even_div (a b : Z) : Z :=
  let q := (a / b)%Z in
  let r := (a mod b)%Z in
  if (2 * r <? b)%Z then q
  else if (b <? 2 * r)%Z then (q + 1)%Z
  else if Z.even q then q else (q + 1)%Z.

(** The number of tenths nearest to the exact value [m * 2^e] of a
    positive finite float. *)
Definition nearest_tenths (m : positive) (e : Z) : Z :=
  if (0 <=? e)%Z then (10 * Z.pos m * 2 ^ e)%Z
  else round_half_even_div (10 * Z.pos m) (2 ^ (- e)).

(** [round(x, 1)]: CPython rounds the exact binary value of [x] to one
    decimal correctly (ties to even) and returns the float nearest to that
    decimal; a float with no fractional bits is returned as it is. The
    model is exact for [10 * |x| < 2^53], which covers every percentage. *)
Definition py_round1 (x : float) : float :=
  match Prim2SF x with
  | S754_finite sgn m e =>
    if (0 <=? e)%Z then x
    else
      let y := PrimFloat.div
                 (PrimFloat.of_uint63 (Uint63.of_Z (nearest_tenths m e)))
                 10%float in
      if sgn then PrimFloat.opp y else y
  | _ => x
  end.

(** ** [resume_coach/agent.py] *)

Module Resume.
Record t := mk { summary : str; skills : list str; experience : list str }.
End Resume.

Module JD.
Record t := mk { title : str; skills : list str; responsibilities : list str }.
End JD.

Module Suggestions.
Record t := mk {
  suggested_summary : str;
  add_skills : list str;
  rewritten_experience : list str
}.
End Suggestions.

Record CoachingQuestion := { question : str; tip : str }.

Definition VERB_KEYWORDS : list str :=
  [ py "managed"; py "led"; py "developed"; py "designed"; py "implemented";
    py "built"; py "created"; py "improved"; py "optimized"; py "automated";
    py "reduced"; py "increased"; py "delivered" ].

Definition nonempty (s : str) : bool :=
  match s with [] => false | _ :: _ => true end.

Definition _lines (text : str) : list str :=
  List.filter nonempty (map strip (splitlines text)).

(** [re.match(r'^(a|b|c)[:\- ]', llow)]: one of the alternatives, followed
    by a colon, a hyphen or a space. *)
Definition re_header (alts : list str) (llow : str) : bool :=
  existsb (fun a =>
             match after_prefix a llow with
             | Some (c :: _) => mem c (py ":- ")
             | _ => false
             end) alts.

Definition str_eqb (a b : str) : bool := bool_decide (a = b).

Inductive section := SecSkills | SecExperience | SecSummary | SecResponsibilities.

(** The header a lowercased resume line opens, in the order the code tests. *)
Definition resume_header (llow : str) : option section :=
  if re_header [py "skills"; py "technical skills"; py "skillset"] llow
     || str_eqb llow (py "skills") then Some SecSkills
  else if re_header [py "experience"; py "work experience";
                     py "professional experience"] llow
          || str_eqb llow (py "experience") then Some SecExperience
  else if re_header [py "summary"; py "profile"; py "professional summary"] llow
          || str_eqb llow (py "summary") then Some SecSummary
  else None.

(** The tokens of a line of a skills section. *)
Definition skill_tokens (line : str) : list str :=
  List.filter nonempty (map strip (split_on (py ";,|") line)).

(** The loop state of [parse_resume]. *)
Record resume_acc := {
  acc_section : option section;
  acc_summary_lines : list str;
  acc_skills : list str;
  acc_experience : list str
}.

Definition BULLET : char := 0x2022.

Section Agent.
Context {U : UnicodeData}.

Definition any_verb (llow : str) : bool :=
  existsb (fun v => contains v llow) VERB_KEYWORDS.

Definition resume_step (st : resume_acc) (line : str) : resume_acc :=
  let llow := lower line in
  match resume_header llow with
  | Some sec =>
    {| acc_section := Some sec; acc_summary_lines := acc_summary_lines st;
       acc_skills := acc_skills st; acc_experience := acc_experience st |}
  | None =>
    match acc_section st with
    | Some SecSkills =>
      {| acc_section := acc_section st;
         acc_summary_lines := acc_summary_lines st;
         acc_skills := acc_skills st ++ skill_tokens line;
         acc_experience := acc_experience st |}
    | Some SecExperience =>
      {| acc_section := acc_section st;
         acc_summary_lines := acc_summary_lines st;
         acc_skills := acc_skills st;
         acc_experience := acc_experience st ++ [line] |}
    | _ =>
      if match line with
         | c :: _ => mem c [0x2D; BULLET; 0x2A]
         | [] => false
         end || any_verb llow
      then
        {| acc_section := acc_section st;
           acc_summary_lines := acc_summary_lines st;
           acc_skills := acc_skills st;
           acc_experience :=
             acc_experience st
             ++ [strip (lstrip_chars [0x2D; BULLET; 0x2A; 0x20] line)] |}
      else if (length (acc_summary_lines st) <? 3)%nat
              && (length (split_ws line) <? 40)%nat
      then
        {| acc_section := acc_section st;
           acc_summary_lines := acc_summary_lines st ++ [line];
           acc_skills := acc_skills st;
           acc_experience := acc_experience st |}
      else st
    end
  end.

Definition parse_resume (text : str) : Resume.t :=
  let st := fold_left resume_step (_lines text)
              {| acc_section := None; acc_summary_lines := [];
                 acc_skills := []; acc_experience := [] |} in
  {| Resume.summary := strip (join (py " ") (acc_summary_lines st));
     Resume.skills := acc_skills st;
     Resume.experience := acc_experience st |}.

(** The loop state of [parse_jd]: section, skills, responsibilities. *)
Definition jd_step (st : option section * list str * list str) (line : str)
  : option section * list str * list str :=
  let '(sec, skills, responsibilities) := st in
  let llow := lower line in
  if contains (py "skills") llow || contains (py "requirements") llow
     || contains (py "technologies") llow
  then (Some SecSkills, skills, responsibilities)
  else if contains (py "responsibil") llow || contains (py "what you will") llow
  then (Some SecResponsibilities, skills, responsibilities)
  else
    match sec with
    | Some SecSkills => (sec, skills ++ skill_tokens line, responsibilities)
    | Some SecResponsibilities => (sec, skills, responsibilities ++ [line])
    | _ =>
      if mem 0x2C line && (length line <? 120)%nat then
        let parts := List.filter nonempty (map strip (split_on [0x2C] line)) in
        if (1 <? length parts)%nat then (sec, skills ++ parts, responsibilities)
        else st
      else st
    end.

Definition parse_jd (text : str) : JD.t :=
  let lines := _lines text in
  let '(_, skills, responsibilities) :=
    fold_left jd_step (tail lines) (None, [], []) in
  {| JD.title := hd [] lines; JD.skills := skills;
     JD.responsibilities := responsibilities |}.

Definition match_and_score (resume : Resume.t) (jd : JD.t) : float * list str :=
  let resume_skills : gset str := list_to_set (map lower (Resume.skills resume)) in
  let jd_skills : gset str := list_to_set (map lower (JD.skills jd)) in
  if decide (jd_skills = ∅) then (0%float, [])
  else
    let matched := resume_skills ∩ jd_skills in
    let missing := merge_sort str_le (elements (jd_skills ∖ resume_skills)) in
    let score :=
      PrimFloat.div (PrimFloat.mul 100%float (float_of_nat (size matched)))
                    (float_of_nat (size jd_skills)) in
    (py_round1 score, missing).

End Agent.

(** [re.findall(r"\d+[\.,]?\d*%?|\d+", b)], read left to right: the first
    alternative matches wherever a digit starts, so the scan is a three
    state machine (outside a match, in the leading digits, after the
    optional separator). *)
Inductive num_state := NumOutside | NumInt (acc : str) | NumFrac (acc : str).

Section Suggest.
Context {U : UnicodeData}.

Fixpoint findall_nums_go (st : num_state) (s : str) : list str :=
  match s with
  | [] =>
    match st with
    | NumOutside => []
    | NumInt acc | NumFrac acc => [rev acc]
    end
  | c :: rest =>
    match st with
    | NumOutside =>
      if isdecimal c then findall_nums_go (NumInt [c]) rest
      else findall_nums_go NumOutside rest
    | NumInt acc =>
      if isdecimal c then findall_nums_go (NumInt (c :: acc)) rest
      else if (c =? 0x2E) || (c =? 0x2C)
      then findall_nums_go (NumFrac (c :: acc)) rest
      else if c =? 0x25 then rev (c :: acc) :: findall_nums_go NumOutside rest
      else rev acc :: findall_nums_go NumOutside rest
    | NumFrac acc =>
      if isdecimal c then findall_nums_go (NumFrac (c :: acc)) rest
      else if c =? 0x25 then rev (c :: acc) :: findall_nums_go NumOutside rest
      else rev acc :: findall_nums_go NumOutside rest
    end
  end.

Definition findall_nums (b : str) : list str := findall_nums_go NumOutside b.

Definition METRIC_HINT : str :=
  py " (include quantifiable impact, e.g., reduced X by Y% or improved throughput by N)".

(** One iteration of the loop over the experience bullets. *)
Definition rewrite_bullet (b : str) : str :=
  match findall_nums b with
  | _ :: _ => if (length b <? 240)%nat then b else take 240 b ++ py "..."
  | [] => b ++ METRIC_HINT
  end.

Definition suggest_resume_updates (resume : Resume.t) (jd : JD.t)
    (max_suggestions : Z) : Suggestions.t :=
  let title := JD.title jd in
  let suggested_summary := Resume.summary resume in
  let suggested_summary :=
    if nonempty title then
      if nonempty suggested_summary
      then title ++ py " - " ++ suggested_summary
      else title ++ py " candidate with relevant experience."
    else suggested_summary in
  let '(_, missing) := match_and_score resume jd in
  let add_skills := slice_to missing 10 in
  let rewritten :=
    map rewrite_bullet (slice_to (Resume.experience resume) max_suggestions) in
  {| Suggestions.suggested_summary := suggested_summary;
     Suggestions.add_skills := add_skills;
     Suggestions.rewritten_experience := rewritten |}.

Definition skill_question (s : str) : CoachingQuestion :=
  {| question := py "Can you describe your experience with " ++ s ++ py "?";
     tip := py "Mention specific projects, your role, technologies used, and outcomes or metrics." |}.

Definition responsibility_question (r : str) : CoachingQuestion :=
  {| question := py "Tell me about a time you " ++ lower (strip_chars (py ".") r);
     tip := py "Use STAR (Situation, Task, Action, Result) and quantify results when possible." |}.

Definition generic_question : CoachingQuestion :=
  {| question := py "Describe a technical challenge you solved recently.";
     tip := py "Explain trade-offs, your approach, and measurable outcome." |}.

(** [while len(questions) < n: questions.append(generic)]. *)
Equations? pad_questions (n : Z) (questions : list CoachingQuestion)
  : list CoachingQuestion
  by wf (Z.to_nat (n - Z.of_nat (length questions))) lt :=
  pad_questions n questions with decide (Z.of_nat (length questions) < n)%Z => {
    | left _ := pad_questions n (questions ++ [generic_question]);
    | right _ := questions }.
Proof. rewrite length_app. simpl. lia. Qed.

Definition generate_coaching_questions (jd : JD.t) (n : Z)
  : list CoachingQuestion :=
  let skills := JD.skills jd in
  let responsibilities := JD.responsibilities jd in
  let questions :=
    map skill_question
        (match skills with [] => [] | _ :: _ => slice_to skills n end) in
  let questions :=
    questions
    ++ map responsibility_question
         (slice_to responsibilities
                   (Z.max 0 (n - Z.of_nat (length questions)))) in
  pad_questions n questions.

(** The test of [tailor_resume_text] for a line to replace. *)
Definition is_experience_line (line : str) : bool :=
  startswith (py "-") line || any_verb (lower line).

(** The walk over the original lines: [out] and [replaced]. The index
    [replaced] is below [max_replace] where it is read. *)
Definition tailor_step (rewritten : list str) (st : list str * nat)
    (line : str) : list str * nat :=
  let '(out, replaced) := st in
  if (replaced <? length rewritten)%nat && is_experience_line line
  then (out ++ [py "- " ++ default [] (rewritten !! replaced)], S replaced)
  else (out ++ [line], replaced).

(** What is in [out] before the walk: the suggested summary and the
    added-skills block, each followed by an empty line. *)
Definition tailor_header (suggestions : Suggestions.t) : list str :=
  let out := [] in
  let out :=
    if nonempty (Suggestions.suggested_summary suggestions)
    then out ++ [Suggestions.suggested_summary suggestions; []]
    else out in
  match Suggestions.add_skills suggestions with
  | _ :: _ =>
    out ++ [py "Skills:"; join (py ", ") (Suggestions.add_skills suggestions); []]
  | [] => out
  end.

Definition EXPERIENCE_HEADING : str := py "Experience (suggested improvements):".

(** The list [out] that [tailor_resume_text] joins, and the final value
    of [replaced]. *)
Definition tailor_lines (original_text : str) (suggestions : Suggestions.t)
  : list str * nat :=
  let lines := _lines original_text in
  let out := tailor_header suggestions in
  let rewritten := Suggestions.rewritten_experience suggestions in
  let max_replace := length rewritten in
  let '(out, replaced) := fold_left (tailor_step rewritten) lines (out, 0%nat) in
  let out :=
    if (replaced <? max_replace)%nat then
      out ++ [[]; EXPERIENCE_HEADING]
          ++ map (fun i => py "- " ++ default [] (rewritten !! i))
                 (seq replaced (max_replace - replaced))
    else out in
  (out, replaced).

Definition tailor_resume_text (original_text : str)
    (suggestions : Suggestions.t) : str :=
  join [0x0A] (fst (tailor_lines original_text suggestions)).

End Suggest.

(** ** [resume_coach/llm.py] *)

Module Llm.

(** What [r.json()] and the rest of the module handle: the values
    [json] decodes to. An object is a dict (the first binding of a key
    is the one read). *)
#[warnings="-register-all"]
Inductive json :=
| JNull
| JBool (b : bool)
| JInt (z : Z)
| JFloat (f : float)
| JString (s : str)
| JArray (items : list json)
| JObject (fields : list (str * json)).

Inductive exn := RuntimeError (msg : str) | TypeError.

Inductive outcome (A : Type) := Return (a : A) | Raise (e : exn).
Arguments Return {A} a.
Arguments Raise {A} e.

(** What [requests.post] does: it raises (the text is [str(e)]), or it
    returns a response with its status, its body and what [r.json()]
    gives ([None] where it raises). *)
Inductive post_result :=
| PostRaises (e : str)
| PostResponse (status_code : Z) (text : str) (body : option json).

Record request := {
  url : str;
  prompt_text : str;
  temperature : float;
  maxOutputTokens : Z;
  timeout : Z
}.

Definition DEFAULT_MODEL : str := py "gemini-2.5-flash".
Definition DEFAULT_ENDPOINT (model : str) : str :=
  py "https://generativelanguage.googleapis.com/v1beta2/models/" ++ model
  ++ py ":generate".

(** The prefix of every failure message; the CLI tests
    [llm_out.startswith('LLM request failed')]. *)
Definition FAILURE_MARKER : str := py "LLM request failed".

Fixpoint get (k : str) (fields : list (str * json)) : option json :=
  match fields with
  | [] => None
  | (k', v) :: rest => if str_eqb k k' then Some v else get k rest
  end.

(** Python truth of a decoded value. *)
Definition truthy (v : json) : bool :=
  match v with
  | JNull => false
  | JBool b => b
  | JInt z => negb (z =? 0)%Z
  | JFloat f => negb (PrimFloat.eqb f 0%float)
  | JString s => nonempty s
  | JArray items => match items with [] => false | _ => true end
  | JObject fields => match fields with [] => false | _ => true end
  end.

(** [k in cand] for a key [k]: a dict has the key, a string has it as a
    substring, a list has it as an item; anything else is not iterable. *)
Definition key_in (k : str) (cand : json) : outcome bool :=
  match cand with
  | JObject fields => Return (match get k fields with Some _ => true | None => false end)
  | JString s => Return (contains k s)
  | JArray items =>
    Return (existsb (fun v => match v with JString s => str_eqb s k | _ => false end) items)
  | _ => Raise TypeError
  end.

(** [cand[k]] for a string [k]: only a dict can be indexed by it, and
    the key is there when [k in cand] said so. *)
Definition index (cand : json) (k : str) : outcome json :=
  match cand with
  | JObject fields =>
    match get k fields with Some v => Return v | None => Raise TypeError end
  | _ => Raise TypeError
  end.

Section Client.
(** [json.dumps], and the network. *)
Variable json_dumps : json -> str.
Variable requests_post : request -> post_result.

(** The tail of [_extract_text_from_response]: the top-level ['output'],
    then the serialized response. *)
Definition extract_fallback (fields : list (str * json)) : json :=
  match get (py "output") fields with
  | Some (JString s) => JString s
  | _ => JString (json_dumps (JObject fields))
  end.

(** The loop [for k in ('content', 'output', 'text')] over a candidate. *)
Fixpoint first_key (cand : json) (ks : list str) : outcome (option json) :=
  match ks with
  | [] => Return None
  | k :: ks' =>
    match key_in k cand with
    | Raise e => Raise e
    | Return true =>
      match index cand k with
      | Return v => Return (Some v)
      | Raise e => Raise e
      end
    | Return false => first_key cand ks'
    end
  end.

Definition _extract_text_from_response (resp_json : json) : outcome json :=
  match resp_json with
  | JObject fields =>
    match get (py "candidates") fields with
    | Some (JArray (cand :: _)) =>
      match first_key cand [py "content"; py "output"; py "text"] with
      | Raise e => Raise e
      | Return (Some v) => Return v
      | Return None =>
        match key_in (py "message") cand with
        | Raise e => Raise e
        | Return false => Return (extract_fallback fields)
        | Return true =>
          match index cand (py "message") with
          | Raise e => Raise e
          | Return (JObject message) =>
            let cont :=
              match get (py "content") message with
              | Some v => if truthy v then Some v else get (py "text") message
              | None => get (py "text") message
              end in
            match cont with
            | Some (JString s) => Return (JString s)
            | _ => Return (extract_fallback fields)
            end
          | Return _ => Return (extract_fallback fields)
          end
        end
      end
    | _ => Return (extract_fallback fields)
    end
  | _ => Return (JString [])
  end.

(** [api_key or os.environ.get('GOOGLE_API_KEY')]: [api_key] is the
    argument and [env_key] the value of the variable, each [None] when
    absent; an empty argument gives way to the variable. *)
Definition resolve_key (api_key env_key : option str) : option str :=
  match api_key with
  | Some (_ :: _) => api_key
  | _ => env_key
  end.

Definition build_request (prompt key model : str) (max_output_tokens : Z)
    (temp : float) : request :=
  let endpoint := DEFAULT_ENDPOINT model in
  {| url := endpoint ++ py "?key=" ++ key; prompt_text := prompt;
     temperature := temp; maxOutputTokens := max_output_tokens;
     timeout := 30 |}.

Definition call_gemini_flash (prompt : str) (api_key env_key : option str)
    (model : str) (max_output_tokens : Z) (temp : float) : outcome json :=
  match resolve_key api_key env_key with
  | Some ((_ :: _) as key) =>
    match requests_post (build_request prompt key model max_output_tokens temp) with
    | PostRaises e => Return (JString (FAILURE_MARKER ++ py ": " ++ e))
    | PostResponse status_code text body =>
      if negb (status_code =? 200)%Z
      then Return (JString (FAILURE_MARKER ++ py ": " ++ str_of_Z status_code
                            ++ py " " ++ text))
      else
        match body with
        | None => Return (JString text)
        | Some resp_json => _extract_text_from_response resp_json
        end
    end
  | _ => Raise (RuntimeError (py "GOOGLE_API_KEY not provided"))
  end.

(** The test of [scripts/cli.py] on what the wrapper returned: the LLM
    text is kept when it is non-empty, does not start with the marker and
    does not contain "failed" in any case. *)
Definition cli_accepts {U : UnicodeData} (llm_out : str) : bool :=
  nonempty llm_out && negb (startswith FAILURE_MARKER llm_out)
  && negb (contains (py "failed") (lower llm_out)).

End Client.
End Llm.

(** ** [resume_coach/catbot.py] *)

Module Catbot.
Import Llm.

(** The literal before [jd_text]; the line ends inside it are those of the
    source's [\n]. *)
Definition COACHING_HEAD : str :=
  py "You are CatBot, an expert interview coach. Provide concise, actionable coaching for the candidate given the Job Description and Resume below.

Instructions:
- Produce an ordered list of the top {n} likely interview questions tailored to the JD.
- For each question, provide a 2-3 sentence model answer structure (STAR format) and a 1-2 sentence coaching tip.
- Provide a short (3-5) point checklist of resume improvements specific to the JD (what to emphasize, which metrics to add).
- Keep responses plain text and clearly labeled (Question, Model Answer, Tip, Resume Checklist).
- Do NOT invent credentials, dates, or companies. If information is missing, suggest how the candidate could phrase hypothetical improvements using terms like 'If applicable, mention...'.

JOB DESCRIPTION:
".

(** The literal between the two texts, and the one after them. *)
Definition RESUME_LABEL : str := 0x0A :: 0x0A :: py "RESUME:" ++ [0x0A].
Definition PROMPT_END : str := [0x0A; 0x0A].

(** The [replace] is applied to the whole string, the two texts included. *)
Definition _build_coaching_prompt (jd_text resume_text : str) (n_questions : Z)
  : str :=
  replace (py "{n}") (str_of_Z n_questions)
          (COACHING_HEAD ++ jd_text ++ RESUME_LABEL ++ resume_text ++ PROMPT_END).

Section Coach.
Variable json_dumps : json -> str.
Variable requests_post : request -> post_result.

Definition coach_candidate (jd_text resume_text : str) (n_questions : Z)
    (api_key env_key : option str) (model : str) : outcome json :=
  match resolve_key api_key env_key with
  | Some ((_ :: _) as api_key) =>
    let prompt := _build_coaching_prompt jd_text resume_text n_questions in
    call_gemini_flash json_dumps requests_post prompt (Some api_key) env_key
                      model 1024 0.15%float
  | _ =>
    Raise (RuntimeError (py "GOOGLE_API_KEY required for CatBot to call Gemini Flash"))
  end.

End Coach.
End Catbot.

(** ** [scripts/cli.py]: what [main] computes from the two texts *)

Module Cli.
Import Llm.

Definition TAILOR_HEAD : str :=
  py "Tailor the resume below to the job description. Produce a concise, professional, and ATS-friendly resume that highlights relevant skills and quantifiable achievements. Keep formatting as plain text.

JOB DESCRIPTION:
".

Definition TAILOR_END : str :=
  py "

Make changes only to wording (do not invent credentials). If information is missing, add suggested skill lines prefixed with 'Suggested Skill:'.
".

Definition tailor_prompt (jd_text resume_text : str) : str :=
  TAILOR_HEAD ++ jd_text ++ Catbot.RESUME_LABEL ++ resume_text ++ TAILOR_END.

(** What [main] may raise: the [SystemExit] of [parse_args], an
    exception of the file system or of [print] (an [OSError], a
    [UnicodeError], kept as its text), what the wrapper raised, or the
    [AttributeError] of [llm_out.startswith] on a value that is no
    string. *)
Inductive error :=
| SystemExit (code : Z)
| External (e : str)
| Wrapper (e : exn)
| AttributeError.

(** The parsed arguments: [args.resume], [args.jd], [args.out]. *)
Module Args.
Record t := mk { resume : str; jd : str; out : str }.
End Args.

(** The JSON object [main] prints. *)
Record output := {
  match_score : float;
  missing_skills : list str;
  suggestions : Suggestions.t;
  coaching_questions : list CoachingQuestion;
  tailored_resume_path : str
}.

(** The file system and the standard output, each call with the
    exception it raises (its text) or its result: [Path(p).exists()],
    [p.read_text(encoding='utf-8')], [Path(p).write_text(text,
    encoding='utf-8')], [str(Path(p).resolve())] and
    [print(json.dumps(output, indent=2, ensure_ascii=False))]. *)
Record world := {
  path_exists : str -> str + bool;
  read_text : str -> str + str;
  write_text : str -> str -> option str;
  resolve : str -> str + str;
  print_json : output -> option str
}.

(** A run of [main]: the call of [write_text] it reached (path and
    text), the object it printed, and the exception it ended with. *)
Record run := {
  write_call : option (str * str);
  printed : option output;
  raised : option error
}.

Definition load_text (w : world) (path_or_text : str) : error + str :=
  match path_exists w path_or_text with
  | inl e => inl (External e)
  | inr true =>
    match read_text w path_or_text with
    | inl e => inl (External e)
    | inr text => inr text
    end
  | inr false => inr path_or_text
  end.

Section Main.
Context {U : UnicodeData}.
Variable json_dumps : json -> str.
Variable requests_post : request -> post_result.

(** The text of the LLM when [GOOGLE_API_KEY] is set and the answer is
    kept: [Some] text, or [None] where [tailored] stays [None]. *)
Definition llm_tailored (env_key : option str) (jd_text resume_text : str)
  : error + option str :=
  match env_key with
  | Some (_ :: _) =>
    match call_gemini_flash json_dumps requests_post
            (tailor_prompt jd_text resume_text) None env_key
            DEFAULT_MODEL 1024 0.2%float with
    | Raise e => inl (Wrapper e)
    | Return (JString llm_out) =>
      inr (if cli_accepts llm_out then Some llm_out else None)
    | Return v => if truthy v then inl AttributeError else inr None
    end
  | _ => inr None
  end.

(** [main]: [argv] is what [p.parse_args()] gives (the exit code where
    it exits), [env_key] the value of [GOOGLE_API_KEY]. *)
Definition main (w : world) (env_key : option str) (argv : Z + Args.t) : run :=
  let stop e := {| write_call := None; printed := None; raised := Some e |} in
  match argv with
  | inl code => stop (SystemExit code)
  | inr args =>
    match load_text w (Args.resume args) with
    | inl e => stop e
    | inr resume_text =>
      match load_text w (Args.jd args) with
      | inl e => stop e
      | inr jd_text =>
        let resume := parse_resume resume_text in
        let jd := parse_jd jd_text in
        let '(score, missing) := match_and_score resume jd in
        let suggestions := suggest_resume_updates resume jd 6 in
        let coaching := generate_coaching_questions jd 8 in
        match llm_tailored env_key jd_text resume_text with
        | inl e => stop e
        | inr tailored =>
          let tailored :=
            match tailored with
            | Some ((_ :: _) as text) => text
            | _ => tailor_resume_text resume_text suggestions
            end in
          let wrote e :=
            {| write_call := Some (Args.out args, tailored);
               printed := None; raised := Some (External e) |} in
          match write_text w (Args.out args) tailored with
          | Some e => wrote e
          | None =>
            match resolve w (Args.out args) with
            | inl e => wrote e
            | inr path =>
              let output :=
                {| match_score := score; missing_skills := missing;
                   suggestions := suggestions;
                   coaching_questions := coaching;
                   tailored_resume_path := path |} in
              match print_json w output with
              | Some e => wrote e
              | None =>
                {| write_call := Some (Args.out args, tailored);
                   printed := Some output; raised := None |}
              end
            end
          end
        end
      end
    end
  end.

End Main.
End Cli.

(** ** Notions used in the statements *)

(** A token that survives the comma-joined skills line: it is not empty,
    has no whitespace at either end, none of the delimiters [;,|] and no
    line boundary. *)
Definition clean_token (t : str) : bool :=
  nonempty t && str_eqb (strip t) t
  && forallb (fun c => negb (mem c (py ";,|")) && negb (is_linebreak c)) t.

(** The number of lines that pass the test of [tailor_resume_text] for an
    experience bullet. *)
Definition count_experience_lines {U : UnicodeData} (lines : list str) : nat :=
  length (List.filter is_experience_line lines).

(** A line as [_lines] yields it: not empty, its own [strip], free of
    line boundaries. *)
Definition line_ok (l : str) : bool :=
  nonempty l && str_eqb (strip l) l
  && forallb (fun c => negb (is_linebreak c)) l.

(** The section a lowercased job-description line opens, in the order
    [parse_jd] tests. *)
Definition jd_header (llow : str) : option section :=
  if contains (py "skills") llow || contains (py "requirements") llow
     || contains (py "technologies") llow
  then Some SecSkills
  else if contains (py "responsibil") llow || contains (py "what you will") llow
  then Some SecResponsibilities
  else None.

(** The keys [_extract_text_from_response] looks up in the first
    candidate. *)
Definition CANDIDATE_KEYS : list str :=
  [py "content"; py "output"; py "text"; py "message"].

(** A first candidate that is no dict and on which a lookup is reached:
    a null, a boolean or a number (not iterable), a string that holds one
    of the keys as a substring, a list that holds one as an item. *)
Definition raising_candidate (cand : Llm.json) : bool :=
  match cand with
  | Llm.JObject _ => false
  | Llm.JString s => existsb (fun k => contains k s) CANDIDATE_KEYS
  | Llm.JArray items =>
    existsb (fun k =>
               existsb (fun v => match v with
                                 | Llm.JString s => str_eqb s k
                                 | _ => false
                                 end) items) CANDIDATE_KEYS
  | _ => true
  end.

(** A decoded response whose ['candidates'] is a non-empty list with such
    a first item. *)
Definition raising_response (resp_json : Llm.json) : bool :=
  match resp_json with
  | Llm.JObject fields =>
    match Llm.get (py "candidates") fields with
    | Some (Llm.JArray (cand :: _)) => raising_candidate cand
    | _ => false
    end
  | _ => false
  end.

(** The two parts of [COACHING_HEAD] around its placeholder. *)
Definition COACHING_INTRO : str :=
  py "You are CatBot, an expert interview coach. Provide concise, actionable coaching for the candidate given the Job Description and Resume below.

Instructions:
- Produce an ordered list of the top ".

Definition COACHING_RULES : str :=
  py " likely interview questions tailored to the JD.
- For each question, provide a 2-3 sentence model answer structure (STAR format) and a 1-2 sentence coaching tip.
- Provide a short (3-5) point checklist of resume improvements specific to the JD (what to emphasize, which metrics to add).
- Keep responses plain text and clearly labeled (Question, Model Answer, Tip, Resume Checklist).
- Do NOT invent credentials, dates, or companies. If information is missing, suggest how the candidate could phrase hypothetical improvements using terms like 'If applicable, mention...'.

JOB DESCRIPTION:
".

(** The message of [coach_candidate] when no key is at hand, and the one
    of [call_gemini_flash]. *)
Definition CATBOT_KEY_MESSAGE : str :=
  py "GOOGLE_API_KEY required for CatBot to call Gemini Flash".
Definition WRAPPER_KEY_MESSAGE : str := py "GOOGLE_API_KEY not provided".

(** The text the heuristic pipeline alone gives for the two texts. *)
Definition heuristic_text {U : UnicodeData} (resume_text jd_text : str) : str :=
  tailor_resume_text resume_text
    (suggest_resume_updates (parse_resume resume_text) (parse_jd jd_text) 6).

(** The object [main] of [scripts/cli.py] prints for the two texts and
    the resolved output path: it holds nothing of the LLM. *)
Definition report {U : UnicodeData} (resume_text jd_text path : str)
  : Cli.output :=
  let resume := parse_resume resume_text in
  let jd := parse_jd jd_text in
  {| Cli.match_score := fst (match_and_score resume jd);
     Cli.missing_skills := snd (match_and_score resume jd);
     Cli.suggestions := suggest_resume_updates resume jd 6;
     Cli.coaching_questions := generate_coaching_questions jd 8;
     Cli.tailored_resume_path := path |}.

(** What is left of a run once the tailored text is chosen: the text is
    written to [out]; then the path is resolved and the report printed.
    The first of the three to raise ends the run. *)
Definition write_and_report {U : UnicodeData} (w : Cli.world)
    (out text resume_text jd_text : str) : Cli.run :=
  let ended e :=
    {| Cli.write_call := Some (out, text); Cli.printed := None;
       Cli.raised := Some (Cli.External e) |} in
  match Cli.write_text w out text with
  | Some e => ended e
  | None =>
    match Cli.resolve w out with
    | inl e => ended e
    | inr path =>
      match Cli.print_json w (report resume_text jd_text path) with
      | Some e => ended e
      | None =>
        {| Cli.write_call := Some (out, text);
           Cli.printed := Some (report resume_text jd_text path);
           Cli.raised := None |}
      end
    end
  end.

(** A file system for the examples: one file, [resume.txt], that holds
    [content]; the working directory is [/work]; every call succeeds. *)
Definition one_file_world (content : str) : Cli.world :=
  {| Cli.path_exists := fun p => inr (str_eqb p (py "resume.txt"));
     Cli.read_text := fun _ => inr content;
     Cli.write_text := fun _ _ => None;
     Cli.resolve := fun p => inr (py "/work/" ++ p);
     Cli.print_json := fun _ => None |}.

(** * Properties *)

(** ** The [str] primitives *)

Section StrLemmas.
Implicit Types (s t a : str) (p : char -> bool).

Lemma mem_spec c cs : mem c cs = true <-> c ∈ cs.
Proof.
  unfold mem. rewrite existsb_exists, list_elem_of_In. split.
  - by intros (x & Hx & ->%N.eqb_eq).
  - intros H. exists c. by rewrite N.eqb_refl.
Qed.

Lemma nonempty_true s : nonempty s = true <-> s <> [].
Proof. destruct s; simpl; split; congruence. Qed.

Lemma lstrip_by_length p s : (length (lstrip_by p s) <= length s)%nat.
Proof. induction s as [|c s IH]; simpl; [lia|]. destruct (p c); simpl; lia. Qed.

Lemma lstrip_by_keeps p s : hd_error s = None \/ (exists c, hd_error s = Some c /\ p c = false) ->
  lstrip_by p s = s.
Proof.
  destruct s as [|c s]; simpl; [done|].
  intros [?|(c' & [= <-] & ->)]; done.
Qed.

Lemma lstrip_by_fixed p c s : lstrip_by p (c :: s) = c :: s -> p c = false.
Proof.
  simpl. destruct (p c); [|done]. intros E.
  pose proof (lstrip_by_length p s) as L. rewrite E in L. simpl in L. lia.
Qed.

Lemma lstrip_by_skip p ws s :
  Forall (fun c => p c = true) ws -> lstrip_by p (ws ++ s) = lstrip_by p s.
Proof. induction 1 as [|c ws Hc _ IH]; simpl; [done|]. by rewrite Hc. Qed.

Lemma rstrip_by_length p s : (length (rstrip_by p s) <= length s)%nat.
Proof.
  unfold rstrip_by. rewrite length_rev.
  etransitivity; [apply lstrip_by_length|]. by rewrite length_rev.
Qed.

Lemma rstrip_by_keeps p s c :
  last s = Some c -> p c = false -> rstrip_by p s = s.
Proof.
  intros (s' & ->)%last_Some Hc. unfold rstrip_by.
  rewrite rev_app_distr. simpl. rewrite Hc. simpl.
  rewrite rev_involutive. done.
Qed.

Lemma rstrip_by_fixed p s c :
  last s = Some c -> rstrip_by p s = s -> p c = false.
Proof.
  intros (s' & ->)%last_Some. unfold rstrip_by.
  rewrite rev_app_distr. simpl. destruct (p c) eqn:Hc; [|done].
  intros E. apply (f_equal (@length _)) in E.
  rewrite length_rev, length_app in E. simpl in E.
  pose proof (lstrip_by_length p (rev s')) as L. rewrite length_rev in L. lia.
Qed.

(** A non-empty string is its own [strip] exactly when it neither starts
    nor ends with whitespace. *)
Lemma strip_fixed_ends c s :
  strip (c :: s) = c :: s ->
  isspace c = false /\ exists d, last (c :: s) = Some d /\ isspace d = false.
Proof.
  intros E. assert (Hc : isspace c = false).
  { destruct (isspace c) eqn:Hc; [|done]. exfalso.
    apply (f_equal (@length _)) in E. unfold strip in E. simpl in E.
    rewrite Hc in E.
    pose proof (rstrip_by_length isspace (lstrip_by isspace s)).
    pose proof (lstrip_by_length isspace s). lia. }
  split; [done|]. unfold strip in E. simpl in E. rewrite Hc in E.
  destruct (last (c :: s)) as [d|] eqn:Hd.
  - exists d. split; [done|]. by eapply rstrip_by_fixed.
  - by apply last_None in Hd.
Qed.

Lemma strip_keeps s c d :
  hd_error s = Some c -> isspace c = false ->
  last s = Some d -> isspace d = false -> strip s = s.
Proof.
  intros Hc Hc' Hd Hd'. unfold strip.
  rewrite (lstrip_by_keeps isspace s) by eauto. by eapply rstrip_by_keeps.
Qed.

Lemma strip_skip ws s :
  Forall (fun c => isspace c = true) ws -> strip (ws ++ s) = strip s.
Proof. intros H. unfold strip. by rewrite lstrip_by_skip. Qed.

Lemma splitlines_line a rest :
  forallb (fun c => negb (is_linebreak c)) a = true ->
  splitlines (a ++ 0x0A :: rest) = a :: splitlines rest.
Proof.
  induction a as [|c a IH]; simpl.
  - intros _. destruct rest; done.
  - intros [Hc Ha]%andb_prop. apply negb_true_iff in Hc.
    rewrite Hc, (IH Ha). done.
Qed.

Lemma split_on_nosep seps a :
  forallb (fun c => negb (mem c seps)) a = true -> split_on seps a = [a].
Proof.
  induction a as [|c a IH]; simpl; [done|].
  intros [Hc Ha]%andb_prop. apply negb_true_iff in Hc.
  by rewrite Hc, (IH Ha).
Qed.

Lemma split_on_sep seps a c rest :
  forallb (fun c => negb (mem c seps)) a = true -> mem c seps = true ->
  split_on seps (a ++ c :: rest) = a :: split_on seps rest.
Proof.
  intros Ha Hc. induction a as [|x a IH]; simpl.
  - by rewrite Hc.
  - simpl in Ha. apply andb_prop in Ha as [Hx Ha]. apply negb_true_iff in Hx.
    by rewrite Hx, (IH Ha).
Qed.

Lemma join_cons sep t1 t2 ts :
  join sep (t1 :: t2 :: ts) = t1 ++ sep ++ join sep (t2 :: ts).
Proof. done. Qed.

Lemma join_last sep ts t d :
  last ts = Some t -> last t = Some d -> last (join sep ts) = Some d.
Proof.
  induction ts as [|t1 [|t2 ts] IH]; [done| |].
  - by intros [= ->].
  - rewrite last_cons_cons, join_cons, !last_app.
    intros H1 H2. by rewrite (IH H1 H2).
Qed.

Lemma is_ascii_forallb s : forallb (fun c => c <? 128) s = true -> is_ascii s.
Proof.
  unfold is_ascii. rewrite forallb_forall, Forall_forall.
  intros H c Hc. apply N.ltb_lt, H. by apply list_elem_of_In.
Qed.

End StrLemmas.

(** ** ASCII text is parsed the same under every [UnicodeData] *)

Section Ascii.
Context {U : UnicodeData}.

Lemma lstrip_by_Forall (P : char -> Prop) p s :
  Forall P s -> Forall P (lstrip_by p s).
Proof.
  induction 1 as [|c s Hc Hs IH]; simpl; [constructor|].
  destruct (p c); [done|by constructor].
Qed.

Lemma strip_Forall (P : char -> Prop) s : Forall P s -> Forall P (strip s).
Proof.
  intros H. unfold strip, rstrip_by.
  apply Forall_rev, lstrip_by_Forall, Forall_rev, lstrip_by_Forall, H.
Qed.

Lemma splitlines_Forall (P : char -> Prop) s :
  Forall P s -> Forall (Forall P) (splitlines s).
Proof.
  remember (length s) as n eqn:Hn. revert s Hn.
  induction n as [n IH] using lt_wf_ind. intros [|c rest] Hn H; simpl.
  { constructor. }
  apply Forall_cons in H as [Hc Hrest]. simpl in Hn.
  destruct (is_linebreak c).
  - destruct rest as [|c' rest'].
    + repeat constructor.
    + destruct ((c =? 0x0D) && (c' =? 0x0A)); constructor; try constructor.
      * apply (IH (length rest')); [simpl in Hn; lia|done|].
        by apply Forall_cons in Hrest as [_ ?].
      * apply (IH (length (c' :: rest'))); [lia|done|done].
  - pose proof (IH (length rest) ltac:(lia) rest eq_refl Hrest) as Hl.
    destruct (splitlines rest) as [|l ls].
    + repeat constructor. done.
    + apply Forall_cons in Hl as [Hl Hls]. constructor; [by constructor|done].
Qed.

Lemma _lines_ascii text : is_ascii text -> Forall is_ascii (_lines text).
Proof.
  intros H. unfold _lines. apply Forall_forall. intros l Hl.
  apply list_elem_of_In, filter_In in Hl as [Hl _].
  apply in_map_iff in Hl as (l0 & <- & Hl0).
  apply strip_Forall.
  pose proof (splitlines_Forall _ _ H) as Hs.
  rewrite Forall_forall in Hs. by apply Hs, list_elem_of_In.
Qed.

Lemma resume_step_ascii st line :
  is_ascii line -> resume_step st line = @resume_step ascii_data st line.
Proof. intros H. unfold resume_step. by rewrite lower_ascii. Qed.

Lemma parse_resume_ascii text :
  is_ascii text -> parse_resume text = @parse_resume ascii_data text.
Proof.
  intros H. unfold parse_resume.
  pose proof (_lines_ascii text H) as Hl.
  generalize ({| acc_section := None; acc_summary_lines := [];
                 acc_skills := []; acc_experience := [] |}).
  induction Hl as [|l ls Hl _ IH]; intros st; simpl; [done|].
  rewrite (resume_step_ascii st l Hl). specialize (IH (@resume_step ascii_data st l)).
  injection IH as E1 E2 E3. by rewrite E1, E2, E3.
Qed.

Lemma match_and_score_ascii resume jd :
  Forall is_ascii (Resume.skills resume) -> Forall is_ascii (JD.skills jd) ->
  match_and_score resume jd = @match_and_score ascii_data resume jd.
Proof.
  intros Hr Hj. unfold match_and_score.
  assert (E : forall l, Forall is_ascii l -> map lower l = map (@lower ascii_data) l).
  { induction 1 as [|x l Hx _ IH]; simpl; [done|]. by rewrite IH, lower_ascii. }
  by rewrite (E _ Hr), (E _ Hj).
Qed.

End Ascii.

(** ** [parse_resume] on a skills header and on the emitted skills block *)

Section SkillsBlock.
Context {U : UnicodeData}.

Lemma resume_step_header st line sec :
  resume_header (lower line) = Some sec ->
  resume_step st line =
    {| acc_section := Some sec; acc_summary_lines := acc_summary_lines st;
       acc_skills := acc_skills st; acc_experience := acc_experience st |}.
Proof. intros H. unfold resume_step. by rewrite H. Qed.

Lemma resume_step_in_skills st line :
  resume_header (lower line) = None -> acc_section st = Some SecSkills ->
  resume_step st line =
    {| acc_section := acc_section st;
       acc_summary_lines := acc_summary_lines st;
       acc_skills := acc_skills st ++ skill_tokens line;
       acc_experience := acc_experience st |}.
Proof. intros H1 H2. unfold resume_step. by rewrite H1, H2. Qed.

Lemma skills_colon_is_header :
  resume_header (lower (py "Skills:")) = Some SecSkills.
Proof. by rewrite lower_ascii by (by apply is_ascii_forallb). Qed.

Lemma clean_token_inv t :
  clean_token t = true ->
  exists c d, hd_error t = Some c /\ isspace c = false
              /\ last t = Some d /\ isspace d = false
              /\ forallb (fun c => negb (mem c (py ";,|"))) t = true
              /\ forallb (fun c => negb (is_linebreak c)) t = true.
Proof.
  unfold clean_token. intros [[H1 H2]%andb_prop H3]%andb_prop.
  destruct t as [|c t]; [done|].
  apply bool_decide_eq_true in H2.
  destruct (strip_fixed_ends _ _ H2) as (Hc & d & Hd & Hd').
  exists c, d. repeat split; try done.
  - rewrite forallb_forall in *. intros x Hx. by apply H3 in Hx as [? _]%andb_prop.
  - rewrite forallb_forall in *. intros x Hx. by apply H3 in Hx as [_ ?]%andb_prop.
Qed.

Lemma clean_token_strip ws t :
  clean_token t = true -> Forall (fun c => isspace c = true) ws ->
  strip (ws ++ t) = t /\ nonempty t = true.
Proof.
  intros (c & d & Hc & Hc' & Hd & Hd' & _)%clean_token_inv Hws.
  rewrite strip_skip by done. split; [by eapply strip_keeps|].
  by destruct t.
Qed.

Lemma join_comma_cons t1 t2 ts :
  join (py ", ") (t1 :: t2 :: ts)
  = t1 ++ 0x2C :: 0x20 :: join (py ", ") (t2 :: ts).
Proof. done. Qed.

(** Splitting the joined line gives the tokens back. *)
Lemma skill_tokens_join ws toks :
  toks <> [] -> Forall (fun t => clean_token t = true) toks ->
  Forall (fun c => isspace c = true) ws ->
  forallb (fun c => negb (mem c (py ";,|"))) ws = true ->
  skill_tokens (ws ++ join (py ", ") toks) = toks.
Proof.
  intros Hne Hclean. revert ws.
  induction Hclean as [|t ts Ht Hts IH]; [done|]. intros ws Hws Hsep.
  destruct (clean_token_strip ws t Ht Hws) as [Hstrip Hnon].
  destruct (clean_token_inv t Ht) as (_ & _ & _ & _ & _ & _ & Htsep & _).
  destruct ts as [|t2 ts].
  - unfold skill_tokens. simpl join.
    rewrite split_on_nosep by (by rewrite forallb_app; apply andb_true_intro).
    cbn [map List.filter]. by rewrite Hstrip, Hnon.
  - rewrite join_comma_cons, app_assoc. unfold skill_tokens.
    rewrite split_on_sep; [|by rewrite forallb_app; apply andb_true_intro|done].
    cbn [map List.filter]. rewrite Hstrip, Hnon. f_equal.
    apply (IH ltac:(done) [0x20]); [by repeat constructor|done].
Qed.

Lemma join_forallb (P : char -> bool) sep toks :
  forallb P sep = true -> Forall (fun t => forallb P t = true) toks ->
  forallb P (join sep toks) = true.
Proof.
  intros Hsep. induction 1 as [|t [|t2 ts] Ht Hts IH]; [done|done|].
  rewrite join_cons, !forallb_app, Ht, Hsep. by apply IH.
Qed.

Lemma joined_line_trimmed toks :
  toks <> [] -> Forall (fun t => clean_token t = true) toks ->
  strip (join (py ", ") toks) = join (py ", ") toks
  /\ nonempty (join (py ", ") toks) = true.
Proof.
  intros Hne Hclean.
  destruct toks as [|t ts]; [done|].
  assert (exists tl, last (t :: ts) = Some tl) as [tl Htl].
  { destruct (last (t :: ts)) eqn:E; [eauto|by apply last_None in E]. }
  assert (Hcl : clean_token tl = true).
  { rewrite Forall_forall in Hclean. apply Hclean.
    apply last_Some in Htl as [l' ->]. apply elem_of_app. right. by left. }
  apply clean_token_inv in Hcl as (_ & d & _ & _ & Hd & Hd' & _).
  apply Forall_cons in Hclean as [Ht _].
  apply clean_token_inv in Ht as (c & _ & Hc & Hc' & _).
  destruct t as [|c0 t]; [done|]. injection Hc as ->.
  assert (Hhd : hd_error (join (py ", ") ((c :: t) :: ts)) = Some c).
  { destruct ts; done. }
  split.
  - eapply strip_keeps; [exact Hhd|done| |exact Hd'].
    by eapply join_last.
  - by destruct (join (py ", ") ((c :: t) :: ts)).
Qed.

(** The lines of the text emitted for the skills block alone. *)
Lemma skills_block_lines toks :
  toks <> [] -> Forall (fun t => clean_token t = true) toks ->
  _lines (join [0x0A] [py "Skills:"; join (py ", ") toks; []])
  = [py "Skills:"; join (py ", ") toks].
Proof.
  intros Hne Hclean.
  destruct (joined_line_trimmed toks Hne Hclean) as [Hstrip Hnon].
  assert (Hlb : forallb (fun c => negb (is_linebreak c)) (join (py ", ") toks) = true).
  { apply join_forallb; [done|]. eapply Forall_impl; [exact Hclean|].
    by intros t (_ & _ & _ & _ & _ & _ & _ & ?)%clean_token_inv. }
  unfold _lines.
  change (join [0x0A] [py "Skills:"; join (py ", ") toks; []])
    with (py "Skills:" ++ 0x0A :: (join (py ", ") toks ++ 0x0A :: [])).
  rewrite !splitlines_line by done.
  cbn [splitlines map]. rewrite Hstrip.
  change (strip (py "Skills:")) with (py "Skills:").
  cbn [List.filter]. rewrite Hnon. done.
Qed.

End SkillsBlock.

(** ** Claims on [parse_resume] *)

(** C1, counterexample. The single line "Skills: Python, SQL, Docker"
    matches the skills header pattern, so the loop sets the section and
    goes on to the next line: no token of the header line is extracted. *)
Lemma parse_resume_inline_skills_counterexample :
  Resume.skills (@parse_resume ascii_data (py "Skills: Python, SQL, Docker")) = []
  /\ Resume.skills (@parse_resume ascii_data (py "Skills: Python, SQL, Docker"))
     <> [py "Python"; py "SQL"; py "Docker"].
Proof. split; [by vm_compute|]. vm_compute. discriminate. Qed.

(** C1, amended. Under every Unicode table, the line
    "Skills: Python, SQL, Docker" alone yields no skills (it is consumed as
    the section header), and the tokens are extracted when they stand on
    the line after the header: "Skills:" followed by "Python, SQL, Docker"
    yields ["Python", "SQL", "Docker"]. *)
Theorem parse_resume_skills_header_scenario {U : UnicodeData} :
  Resume.skills (parse_resume (py "Skills: Python, SQL, Docker")) = []
  /\ Resume.skills
       (parse_resume (py "Skills:" ++ 0x0A :: py "Python, SQL, Docker"))
     = [py "Python"; py "SQL"; py "Docker"].
Proof.
  split; (rewrite parse_resume_ascii by (by apply is_ascii_forallb));
    by vm_compute.
Qed.

Section RoundTrip.
Context {U : UnicodeData}.

Lemma tailor_block_text toks :
  toks <> [] ->
  tailor_resume_text [] (Suggestions.mk [] toks [])
  = join [0x0A] [py "Skills:"; join (py ", ") toks; []].
Proof. destruct toks; done. Qed.

(** C2, amended. Re-parsing the skills block that [tailor_resume_text]
    emits gives back the inserted tokens, in order, when every token is
    clean (not empty, no whitespace at its ends, no [;], [,], [|] and no
    line boundary) and the comma-joined line is not itself read as a
    section header by [parse_resume]. *)
Theorem skills_block_roundtrip (toks : list str) :
  toks <> [] ->
  Forall (fun t => clean_token t = true) toks ->
  resume_header (lower (join (py ", ") toks)) = None ->
  Resume.skills
    (parse_resume (tailor_resume_text [] (Suggestions.mk [] toks [])))
  = toks.
Proof.
  intros Hne Hclean Hhead.
  rewrite tailor_block_text by done. unfold parse_resume.
  rewrite skills_block_lines by done. cbn [fold_left].
  rewrite (resume_step_header _ _ _ skills_colon_is_header).
  rewrite resume_step_in_skills by done.
  cbn [Resume.skills acc_skills app].
  by apply (skill_tokens_join []).
Qed.

End RoundTrip.

(** C2, witness: two ordinary skills. *)
Lemma skills_block_roundtrip_witness :
  Resume.skills
    (@parse_resume ascii_data
       (@tailor_resume_text ascii_data []
          (Suggestions.mk [] [py "python"; py "sql"] [])))
  = [py "python"; py "sql"].
Proof.
  apply (@skills_block_roundtrip ascii_data).
  - discriminate.
  - repeat constructor.
  - reflexivity.
Defined.

(** C2, counterexample. The job description "Backend Engineer /
    Requirements / experience with sql, python" makes [add_skills]
    ["experience with sql", "python"]; both tokens are clean. The joined
    line starts with "experience " and is read as the experience header,
    so re-parsing the emitted block extracts no skill at all. And the
    inline skill list "python; django, sql" of a job description is split
    on commas only, so [add_skills] is ["python; django", "sql"], which
    re-parses into three tokens. *)
Lemma skills_block_roundtrip_counterexample :
  let toks := [py "experience with sql"; py "python"] in
  let toks' := [py "python; django"; py "sql"] in
  (Suggestions.add_skills
     (@suggest_resume_updates ascii_data
        (@parse_resume ascii_data [])
        (@parse_jd ascii_data
           (py "Backend Engineer" ++ 0x0A :: py "Requirements" ++ 0x0A
              :: py "experience with sql, python"))
        6) = toks
   /\ forallb clean_token toks = true
   /\ Resume.skills
        (@parse_resume ascii_data
           (@tailor_resume_text ascii_data [] (Suggestions.mk [] toks [])))
      = [])
  /\ (Suggestions.add_skills
        (@suggest_resume_updates ascii_data
           (@parse_resume ascii_data [])
           (@parse_jd ascii_data
              (py "Backend Engineer" ++ 0x0A :: py "python; django, sql"))
           6) = toks'
      /\ Resume.skills
           (@parse_resume ascii_data
              (@tailor_resume_text ascii_data [] (Suggestions.mk [] toks' [])))
         = [py "python"; py "django"; py "sql"]).
Proof. repeat split; by vm_compute. Qed.

(** ** The order of [sorted] on strings *)

Lemma str_leb_cons x a y b :
  str_leb (x :: a) (y :: b) = true <-> x < y \/ (x = y /\ str_leb a b = true).
Proof.
  simpl. rewrite orb_true_iff, andb_true_iff, N.ltb_lt, N.eqb_eq. done.
Qed.

#[global] Instance str_le_total : Total str_le.
Proof.
  unfold Total, str_le. intros a.
  induction a as [|x a IH]; intros [|y b]; try (by left); try (by right).
  rewrite !str_leb_cons.
  destruct (N.lt_trichotomy x y) as [H|[->|H]]; [by left; left| |by right; left].
  destruct (IH b); [left|right]; by right.
Qed.

#[global] Instance str_le_trans : Transitive str_le.
Proof.
  unfold Transitive, str_le. intros a.
  induction a as [|x a IH]; intros [|y b] [|z c]; try done.
  rewrite !str_leb_cons.
  intros [H1|[-> H1]] [H2|[-> H2]]; [left; lia|by left|by left|].
  right. split; [done|]. by eapply IH.
Qed.

Lemma StronglySorted_strict (l : list (list N)) :
  StronglySorted str_le l -> NoDup l -> StronglySorted str_lt l.
Proof.
  induction 1 as [|x l Hl IH Hx]; intros Hnd; [constructor|].
  apply NoDup_cons in Hnd as [Hx' Hnd]. constructor; [by apply IH|].
  rewrite Forall_forall in *. intros y Hy. split; [by apply Hx|].
  by intros ->.
Qed.

(** ** The rounding of [round(x, 1)] *)

(** [round_half_even_div a b] is within one half of [a / b]. *)
Lemma round_half_even_div_nearest a b :
  (0 < b)%Z ->
  (Z.abs (2 * a - 2 * round_half_even_div a b * b) <= b)%Z.
Proof.
  intros Hb. unfold round_half_even_div.
  pose proof (Z.div_mod a b ltac:(lia)) as Hdm.
  pose proof (Z.mod_pos_bound a b Hb) as Hr.
  repeat case_match;
    repeat match goal with
           | H : (_ <? _)%Z = true |- _ => apply Z.ltb_lt in H
           | H : (_ <? _)%Z = false |- _ => apply Z.ltb_ge in H
           end; nia.
Qed.

(** On an exact tie the even neighbour is taken. *)
Lemma round_half_even_div_tie a b :
  (0 < b)%Z -> (2 * (a mod b) = b)%Z ->
  Z.even (round_half_even_div a b) = true.
Proof.
  intros Hb Htie. unfold round_half_even_div.
  rewrite !(proj2 (Z.ltb_ge _ _)) by lia.
  destruct (Z.even (a / b)) eqn:E; [done|].
  by rewrite Z.even_add, E.
Qed.

(** The tenths chosen for the float of value [m * 2^e], [e < 0], are
    within half a tenth of it: [|10 * m * 2^e - t| <= 1/2]. *)
Lemma nearest_tenths_nearest m e :
  (e < 0)%Z ->
  (Z.abs (2 * (10 * Z.pos m) - 2 * nearest_tenths m e * 2 ^ (- e))
   <= 2 ^ (- e))%Z.
Proof.
  intros He. unfold nearest_tenths. rewrite (proj2 (Z.leb_gt 0 e)) by done.
  apply round_half_even_div_nearest. apply Z.pow_pos_nonneg; lia.
Qed.

(** The model on values where the binary float decides the direction:
    [round(0.05, 1)] and [round(0.15, 1)] are both [0.1], and the exact
    tie [round(6.25, 1)] goes to the even [6.2]. *)
Example py_round1_examples :
  py_round1 0.05%float = 0.1%float
  /\ py_round1 0.15%float = 0.1%float
  /\ py_round1 6.25%float = 6.2%float
  /\ py_round1 (PrimFloat.div 200%float 3%float) = 66.7%float.
Proof. repeat split; by vm_compute. Qed.

(** ** Claims on [match_and_score] and [add_skills] *)

Section Matching.
Context {U : UnicodeData}.
Implicit Types (resume : Resume.t) (jd : JD.t).

Lemma list_to_set_empty_iff (l : list (list N)) :
  list_to_set l = (∅ : gset (list N)) <-> l = [].
Proof.
  split; [|by intros ->]. destruct l as [|x l]; [done|].
  intros H. assert (x ∈ (∅ : gset (list N))); [|set_solver].
  rewrite <- H. set_solver.
Qed.

Lemma size_list_to_set_dups (l : list (list N)) :
  size (list_to_set l : gset (list N)) = length (remove_dups l).
Proof.
  rewrite <- (size_list_to_set (C:=gset (list N)) (remove_dups l))
    by apply NoDup_remove_dups.
  f_equal. apply set_eq. intros x.
  by rewrite !elem_of_list_to_set, elem_of_remove_dups.
Qed.

Lemma size_common (r j : list (list N)) :
  size ((list_to_set r : gset (list N)) ∩ list_to_set j)
  = length (filter (fun s => s ∈ r) (remove_dups j)).
Proof.
  rewrite <- (size_list_to_set (C:=gset (list N)))
    by apply NoDup_filter, NoDup_remove_dups.
  f_equal. apply set_eq. intros x.
  rewrite elem_of_intersection, !elem_of_list_to_set, list_elem_of_filter,
    elem_of_remove_dups. done.
Qed.

(** What [missing] holds, in every case. *)
Lemma missing_elem resume jd s :
  s ∈ snd (match_and_score resume jd)
  <-> s ∈ map lower (JD.skills jd) /\ s ∉ map lower (Resume.skills resume).
Proof.
  unfold match_and_score. case_decide as He; simpl.
  - apply list_to_set_empty_iff in He. rewrite He.
    split; [by intros ?%elem_of_nil|by intros [?%elem_of_nil _]].
  - rewrite merge_sort_Permutation, elem_of_elements, elem_of_difference.
    by rewrite !elem_of_list_to_set.
Qed.

Lemma missing_sorted resume jd :
  StronglySorted str_lt (snd (match_and_score resume jd)).
Proof.
  unfold match_and_score. case_decide; simpl; [constructor|].
  apply StronglySorted_strict.
  - apply (StronglySorted_merge_sort str_le).
  - rewrite merge_sort_Permutation. apply NoDup_elements.
Qed.

(** C3. With [R] the lowercased resume skills and [J] the lowercased
    job-description skills without repeats: when [J] is empty the result
    is [(0.0, [])]; otherwise the score is [round(100.0 * c / len(J), 1)]
    for [c] the number of members of [J] found in [R], and [missing] is
    the strictly ascending list of the members of [J] that are not in
    [R]. Resume skills Python, SQL against job skills python, Java, SQL
    give 66.7 and ["java"]. *)
Theorem match_and_score_spec resume jd :
  let R := map lower (Resume.skills resume) in
  let J := remove_dups (map lower (JD.skills jd)) in
  let common := filter (fun s => s ∈ R) J in
  (J = [] -> match_and_score resume jd = (0%float, []))
  /\ (J <> [] ->
      exists missing,
        match_and_score resume jd
        = (py_round1
             (PrimFloat.div
                (PrimFloat.mul 100%float (float_of_nat (length common)))
                (float_of_nat (length J))),
           missing)
        /\ StronglySorted str_lt missing
        /\ forall s, s ∈ missing <-> s ∈ J /\ s ∉ R)
  /\ match_and_score (Resume.mk [] [py "Python"; py "SQL"] [])
                     (JD.mk [] [py "python"; py "Java"; py "SQL"] [])
     = (66.7%float, [py "java"]).
Proof.
  intros R J common. split; [|split].
  - intros HJ. unfold match_and_score.
    assert (map lower (JD.skills jd) = []) as ->.
    { destruct (map lower (JD.skills jd)) as [|x l] eqn:E; [done|].
      assert (x ∈ J) by (apply elem_of_remove_dups; left).
      rewrite HJ in *. set_solver. }
    done.
  - intros HJ. exists (snd (match_and_score resume jd)).
    split; [|split].
    + unfold match_and_score at 1. case_decide as He.
      { apply list_to_set_empty_iff in He. subst J. by rewrite He in HJ. }
      unfold match_and_score. rewrite decide_False by done. simpl.
      by rewrite size_common, size_list_to_set_dups.
    + apply missing_sorted.
    + intros s. rewrite missing_elem. subst J. by rewrite elem_of_remove_dups.
  - rewrite match_and_score_ascii
      by (simpl; repeat constructor; by apply is_ascii_forallb).
    by vm_compute.
Qed.

(** C8. [missing] lies inside the lowercased job-description skills and
    is disjoint from the lowercased resume skills, and [add_skills] is
    its first ten entries (all of it when it has fewer). *)
Theorem missing_and_add_skills_invariant resume jd (max_suggestions : Z) :
  let missing := snd (match_and_score resume jd) in
  let add_skills :=
    Suggestions.add_skills (suggest_resume_updates resume jd max_suggestions) in
  (forall s, s ∈ missing ->
             s ∈ map lower (JD.skills jd)
             /\ s ∉ map lower (Resume.skills resume))
  /\ add_skills = take 10 missing
  /\ add_skills `prefix_of` missing
  /\ (length add_skills <= 10)%nat.
Proof.
  intros missing add_skills.
  assert (E : add_skills = take 10 missing).
  { subst add_skills missing. unfold suggest_resume_updates.
    by destruct (match_and_score resume jd). }
  split; [|split; [done|split]].
  - intros s. apply missing_elem.
  - rewrite E. apply prefix_take.
  - rewrite E, length_take. lia.
Qed.

End Matching.

(** ** Claims on [suggest_resume_updates] *)

Section Bullets.
Context {U : UnicodeData}.

Lemma findall_nums_go_ascii st b :
  is_ascii b -> findall_nums_go st b = @findall_nums_go ascii_data st b.
Proof.
  intros H. revert st. induction H as [|c b Hc _ IH]; intros st; [done|].
  simpl. rewrite (isdecimal_ascii c Hc).
  destruct st; simpl; by rewrite ?IH.
Qed.

Lemma rewrite_bullet_ascii b :
  is_ascii b -> rewrite_bullet b = @rewrite_bullet ascii_data b.
Proof.
  intros H. unfold rewrite_bullet, findall_nums.
  by rewrite findall_nums_go_ascii.
Qed.

Lemma findall_nums_go_started st b :
  st <> NumOutside -> findall_nums_go st b <> [].
Proof.
  revert st. induction b as [|c b IH]; intros [|acc|acc] H; try done;
    simpl; repeat case_match; try done; by apply IH.
Qed.

(** A numeric token is found exactly when the bullet has a decimal digit. *)
Lemma findall_nums_found b :
  findall_nums b <> [] <-> Exists (fun c => isdecimal c = true) b.
Proof.
  unfold findall_nums. induction b as [|c b IH]; simpl.
  - split; [done|]. by intros ?%Exists_nil.
  - rewrite Exists_cons. destruct (isdecimal c) eqn:Hc.
    + split; [by left|]. intros _. by apply findall_nums_go_started.
    + rewrite IH. split; [by right|]. by intros [?|?].
Qed.

(** What the code does with a bullet that has a numeric token: below
    240 characters it is kept, from 240 characters on the first 240
    characters are followed by an ellipsis. *)
Lemma rewrite_bullet_numeric b :
  findall_nums b <> [] ->
  rewrite_bullet b
  = if (length b <? 240)%nat then b else take 240 b ++ py "...".
Proof. unfold rewrite_bullet. by destruct (findall_nums b). Qed.

(** C4, the code at the boundary. A bullet of exactly 240 characters
    that has a numeric token is not passed through unchanged: the test is
    [len(b) < 240], so nothing is cut and the ellipsis is appended, and
    the entry is 243 characters long. *)
Theorem rewrite_bullet_at_240 :
  let b := py "Cut costs 7%" ++ repeat 0x78 228 in
  length b = 240%nat
  /\ findall_nums b = [py "7%"]
  /\ Suggestions.rewritten_experience
       (suggest_resume_updates (Resume.mk [] [] [b]) (JD.mk [] [] []) 6)
     = [b ++ py "..."].
Proof.
  intros b. assert (Hb : is_ascii b) by (by apply is_ascii_forallb).
  split; [by vm_compute|]. split.
  - unfold findall_nums. rewrite findall_nums_go_ascii by done. by vm_compute.
  - unfold suggest_resume_updates.
    destruct (match_and_score _ _) as [score missing].
    cbn [Suggestions.rewritten_experience Resume.experience].
    change (slice_to [b] 6) with [b]. cbn [map].
    rewrite rewrite_bullet_ascii by done. by vm_compute.
Qed.

End Bullets.

(** ** Claims on [generate_coaching_questions] *)

Section Coaching.
Context {U : UnicodeData}.

Lemma pad_questions_spec n questions :
  pad_questions n questions
  = questions
    ++ repeat generic_question (Z.to_nat (n - Z.of_nat (length questions))).
Proof.
  funelim (pad_questions n questions).
  - match goal with IH : pad_questions _ _ = _ ++ _ |- _ => rewrite IH end.
    rewrite length_app, <- app_assoc. f_equal. simpl length.
    replace (Z.to_nat (n - Z.of_nat (length questions)))
      with (S (Z.to_nat (n - Z.of_nat (length questions + 1)))) by lia.
    done.
  - replace (Z.to_nat (n - Z.of_nat (length questions))) with 0%nat by lia.
    by rewrite app_nil_r.
Qed.

Lemma slice_to_nonneg {A} (l : list A) n :
  (0 <= n)%Z -> slice_to l n = take (Z.to_nat n) l.
Proof. intros H. unfold slice_to. by rewrite (proj2 (Z.leb_le 0 n)). Qed.

Lemma slice_to_neg {A} (l : list A) n :
  (n < 0)%Z -> slice_to l n = take (Z.to_nat (Z.of_nat (length l) + n)) l.
Proof. intros H. unfold slice_to. by rewrite (proj2 (Z.leb_gt 0 n)). Qed.

(** C9. For a target [n >= 0] the result has exactly [n] entries: the
    questions for the first [n] skills, then those for as many
    responsibilities as fit, then the generic question repeated. *)
Theorem coaching_questions_exactly_n jd n :
  (0 <= n)%Z ->
  let k := Z.to_nat n in
  let from_skills := map skill_question (take k (JD.skills jd)) in
  let from_responsibilities :=
    map responsibility_question
        (take (k - length from_skills) (JD.responsibilities jd)) in
  generate_coaching_questions jd n
  = from_skills ++ from_responsibilities
    ++ repeat generic_question
              (k - length from_skills - length from_responsibilities)
  /\ length (generate_coaching_questions jd n) = k.
Proof.
  intros Hn k from_skills from_resp.
  assert (E : generate_coaching_questions jd n
              = from_skills ++ from_resp
                ++ repeat generic_question
                     (k - length from_skills - length from_resp)).
  { unfold generate_coaching_questions. rewrite pad_questions_spec.
    assert (Es : map skill_question
                   match JD.skills jd with
                   | [] => []
                   | _ :: _ => slice_to (JD.skills jd) n
                   end = from_skills).
    { subst from_skills k. rewrite <- (slice_to_nonneg _ n Hn).
      destruct (JD.skills jd); [|done]. by rewrite slice_to_nonneg, take_nil. }
    rewrite Es.
    assert (Hlen : (length from_skills <= k)%nat).
    { subst from_skills. rewrite length_map, length_take. lia. }
    rewrite slice_to_nonneg by lia.
    replace (Z.to_nat (Z.max 0 (n - Z.of_nat (length from_skills))))
      with (k - length from_skills)%nat by lia.
    fold from_resp. rewrite <- app_assoc. do 2 f_equal.
    rewrite length_app. f_equal. lia. }
  split; [done|]. rewrite E, !length_app, repeat_length.
  assert (length from_skills <= k)%nat
    by (subst from_skills; rewrite length_map, length_take; lia).
  assert (length from_resp <= k - length from_skills)%nat
    by (subst from_resp; rewrite length_map, length_take; lia).
  lia.
Qed.

(** C10. For a negative target [n] and [k] skills the result is the
    skill questions for all but the last [min(|n|, k)] skills, that is
    [max(k + n, 0)] entries, with no responsibility question and no
    generic one. *)
Theorem coaching_questions_negative_n jd n :
  (n < 0)%Z ->
  let k := length (JD.skills jd) in
  generate_coaching_questions jd n
  = map skill_question (take (k - Nat.min (Z.to_nat (- n)) k) (JD.skills jd))
  /\ length (generate_coaching_questions jd n)
     = Z.to_nat (Z.max (Z.of_nat k + n) 0).
Proof.
  intros Hn k.
  assert (E : generate_coaching_questions jd n
              = map skill_question
                  (take (k - Nat.min (Z.to_nat (- n)) k) (JD.skills jd))).
  { unfold generate_coaching_questions. rewrite pad_questions_spec.
    rewrite (slice_to_nonneg (JD.responsibilities jd)) by lia.
    replace (Z.to_nat (Z.max 0 _)) with 0%nat by lia.
    replace (Z.to_nat (n - _)) with 0%nat by lia.
    cbn [take map repeat]. rewrite !app_nil_r. f_equal.
    subst k. destruct (JD.skills jd) as [|s l] eqn:Es; [done|].
    rewrite slice_to_neg by done. f_equal. lia. }
  split; [done|]. rewrite E, length_map, length_take. lia.
Qed.

End Coaching.

(** C9, witness: three skills, two responsibilities, eight questions. *)
Lemma coaching_questions_exactly_n_witness :
  length
    (@generate_coaching_questions ascii_data
       (JD.mk (py "Engineer") [py "python"; py "sql"; py "docker"]
              [py "Build services."; py "Lead reviews."])
       8)
  = 8%nat.
Proof.
  apply (@coaching_questions_exactly_n ascii_data
           (JD.mk (py "Engineer") [py "python"; py "sql"; py "docker"]
                  [py "Build services."; py "Lead reviews."]) 8).
  lia.
Defined.

(** C10, witness: three skills and the target -1 give two questions. *)
Lemma coaching_questions_negative_n_witness :
  length
    (@generate_coaching_questions ascii_data
       (JD.mk (py "Engineer") [py "python"; py "sql"; py "docker"]
              [py "Build services."; py "Lead reviews."])
       (-1))
  = 2%nat.
Proof.
  apply (@coaching_questions_negative_n ascii_data
           (JD.mk (py "Engineer") [py "python"; py "sql"; py "docker"]
                  [py "Build services."; py "Lead reviews."]) (-1)).
  lia.
Defined.

(** ** Claims on [tailor_resume_text] *)

Section Tailoring.
Context {U : UnicodeData}.
Implicit Types (rew lines out : list (list N)).

Lemma count_experience_lines_cons line lines :
  count_experience_lines (line :: lines)
  = ((if is_experience_line line then 1 else 0) + count_experience_lines lines)%nat.
Proof. unfold count_experience_lines. simpl. by destruct (is_experience_line line). Qed.

(** The walk from [(out, r)]: it appends one line per original line,
    advances [replaced] by the number of experience lines up to the
    entries left, and writes at position [i] either the next entry or the
    line itself. *)
Lemma tailor_walk rew lines out r :
  exists body,
    fold_left (tailor_step rew) lines (out, r)
    = (out ++ body,
       (r + Nat.min (count_experience_lines lines) (length rew - r))%nat)
    /\ length body = length lines
    /\ forall i line,
         lines !! i = Some line ->
         let k := (r + count_experience_lines (take i lines))%nat in
         body !! i
         = Some (if is_experience_line line && (k <? length rew)%nat
                 then py "- " ++ default [] (rew !! k) else line).
Proof.
  revert out r. induction lines as [|l lines IH]; intros out r.
  - exists []. rewrite app_nil_r. simpl. split; [f_equal; lia|]. split; [done|].
    intros i line H. by rewrite lookup_nil in H.
  - cbn [fold_left]. unfold tailor_step at 2.
    rewrite count_experience_lines_cons.
    destruct ((r <? length rew)%nat && is_experience_line l) eqn:Hsub.
    + apply andb_prop in Hsub as [Hr%Nat.ltb_lt Hl].
      destruct (IH (out ++ [py "- " ++ default [] (rew !! r)]) (S r))
        as (body & E & Hlen & Hbody).
      exists ((py "- " ++ default [] (rew !! r)) :: body).
      rewrite E, <- app_assoc, Hl. split; [f_equal; lia|].
      split; [simpl; lia|]. intros [|i] line Hi.
      * injection Hi as <-. cbn [take].
        change (count_experience_lines []) with 0%nat.
        simpl. by rewrite Hl, Nat.add_0_r, (proj2 (Nat.ltb_lt _ _) Hr).
      * cbn [take]. rewrite count_experience_lines_cons, Hl. simpl in Hi.
        specialize (Hbody i line Hi). simpl in Hbody. simpl.
        rewrite Hbody. by replace (r + S _)%nat with (S (r + count_experience_lines (take i lines)))%nat by lia.
    + destruct (IH (out ++ [l]) r) as (body & E & Hlen & Hbody).
      exists (l :: body). rewrite E, <- app_assoc. split.
      { f_equal. apply andb_false_iff in Hsub as [Hr%Nat.ltb_ge|Hl].
        - lia.
        - rewrite Hl. lia. }
      split; [simpl; lia|]. intros [|i] line Hi.
      * injection Hi as <-. cbn [take].
        change (count_experience_lines []) with 0%nat.
        simpl. by rewrite Nat.add_0_r, andb_comm, Hsub.
      * cbn [take]. rewrite count_experience_lines_cons. simpl in Hi.
        specialize (Hbody i line Hi). simpl in Hbody. simpl. rewrite Hbody.
        apply andb_false_iff in Hsub as [Hr%Nat.ltb_ge|Hl].
        -- rewrite !(proj2 (Nat.ltb_ge _ _)) by lia. by rewrite !andb_false_r.
        -- by rewrite Hl.
Qed.

Lemma leftover_entries (f : list N -> list N) rew a :
  map (fun i => f (default [] (rew !! i))) (seq a (length rew - a))
  = map f (drop a rew).
Proof.
  revert a. induction rew as [|x rew IH]; intros a.
  - by destruct a.
  - destruct a as [|a].
    + simpl. f_equal. rewrite <- seq_shift, map_map. simpl.
      specialize (IH 0%nat). rewrite Nat.sub_0_r, drop_0 in IH. done.
    + simpl. rewrite <- seq_shift, map_map. simpl. apply IH.
Qed.

Lemma _lines_elem text line :
  line ∈ _lines text
  <-> exists orig, orig ∈ splitlines text /\ line = strip orig /\ line <> [].
Proof.
  unfold _lines. rewrite list_elem_of_In, filter_In, in_map_iff, nonempty_true.
  setoid_rewrite list_elem_of_In. split.
  - intros [(orig & <- & H) Hne]. eauto.
  - intros (orig & H & -> & Hne). eauto.
Qed.

(** The whole of [tailor_lines]: header, body of the walk, leftovers. *)
Lemma tailor_lines_shape text sg :
  let lines := _lines text in
  let rew := Suggestions.rewritten_experience sg in
  let matching := count_experience_lines lines in
  exists body,
    length body = length lines
    /\ (forall i line,
          lines !! i = Some line ->
          let k := count_experience_lines (take i lines) in
          body !! i
          = Some (if is_experience_line line && (k <? length rew)%nat
                  then py "- " ++ default [] (rew !! k) else line))
    /\ tailor_lines text sg
       = (tailor_header sg ++ body
          ++ (if (matching <? length rew)%nat
              then [[]; EXPERIENCE_HEADING]
                   ++ map (fun r => py "- " ++ r) (drop matching rew)
              else []),
          Nat.min matching (length rew)).
Proof.
  intros lines rew matching. unfold tailor_lines. fold lines rew.
  destruct (tailor_walk rew lines (tailor_header sg) 0) as (body & E & Hlen & Hbody).
  rewrite E. rewrite Nat.sub_0_r, Nat.add_0_l. fold matching.
  exists body. split; [done|]. split; [exact Hbody|].
  destruct (Nat.ltb_spec matching (length rew)) as [Hlt|Hge].
  - rewrite Nat.min_l by lia. rewrite (proj2 (Nat.ltb_lt _ _) Hlt).
    rewrite leftover_entries. by rewrite <- !app_assoc.
  - rewrite Nat.min_r by lia. rewrite Nat.ltb_irrefl. by rewrite app_nil_r.
Qed.

(** C7. The walk substitutes as many lines as the smaller of the number
    of lines that pass the experience test and the number of rewritten
    entries: that is the final [replaced], and the lines substituted are
    the experience lines met while entries are left, each replaced by
    "- " and the next entry. The text returned is the line-feed join of:
    the header block (the suggested summary and the "Skills:" block,
    each followed by an empty line), one line per original line, and,
    exactly when entries are left over, an empty line, the heading
    "Experience (suggested improvements):" and the leftover entries, each
    after "- ". *)
Theorem tailor_substitution_count text sg :
  let lines := _lines text in
  let rew := Suggestions.rewritten_experience sg in
  let matching := count_experience_lines lines in
  let header :=
    (if nonempty (Suggestions.suggested_summary sg)
     then [Suggestions.suggested_summary sg; []] else [])
    ++ match Suggestions.add_skills sg with
       | [] => []
       | _ :: _ =>
         [py "Skills:"; join (py ", ") (Suggestions.add_skills sg); []]
       end in
  snd (tailor_lines text sg) = Nat.min matching (length rew)
  /\ exists body,
       length body = length lines
       /\ (forall i line,
             lines !! i = Some line ->
             let k := count_experience_lines (take i lines) in
             body !! i
             = Some (if is_experience_line line && (k <? length rew)%nat
                     then py "- " ++ default [] (rew !! k) else line))
       /\ tailor_resume_text text sg
          = join [0x0A]
              (header ++ body
               ++ (if (matching <? length rew)%nat
                   then [[]; py "Experience (suggested improvements):"]
                        ++ map (fun r => py "- " ++ r) (drop matching rew)
                   else [])).
Proof.
  intros lines rew matching header.
  destruct (tailor_lines_shape text sg) as (body & Hlen & Hbody & E).
  unfold tailor_resume_text. rewrite E. split; [done|].
  exists body. split; [done|]. split; [done|]. cbn [fst].
  change EXPERIENCE_HEADING with (py "Experience (suggested improvements):").
  assert (tailor_header sg = header) as ->; [|done].
  subst header. unfold tailor_header.
  destruct (nonempty (Suggestions.suggested_summary sg)),
    (Suggestions.add_skills sg); by rewrite ?app_nil_r.
Qed.

(** C6, amended. The lines the walk sees are the original lines with
    surrounding whitespace removed, blank lines dropped. The line at
    position [i] of them stands in the output at position [i] after the
    header block: as it is (trimmed) when it is not substituted, and as
    "- " with the next rewritten entry when it passes the experience test
    while entries are left. *)
Theorem tailor_keeps_trimmed_lines text sg i line :
  _lines text !! i = Some line ->
  let rew := Suggestions.rewritten_experience sg in
  let k := count_experience_lines (take i (_lines text)) in
  (exists orig, orig ∈ splitlines text /\ line = strip orig /\ line <> [])
  /\ fst (tailor_lines text sg) !! (length (tailor_header sg) + i)%nat
     = Some (if is_experience_line line && (k <? length rew)%nat
             then py "- " ++ default [] (rew !! k) else line).
Proof.
  intros Hi rew k. split.
  - apply _lines_elem. by eapply list_elem_of_lookup_2.
  - destruct (tailor_lines_shape text sg) as (body & Hlen & Hbody & E).
    rewrite E. cbn [fst].
    assert (Hib : (i < length body)%nat).
    { rewrite Hlen. by eapply lookup_lt_Some. }
    rewrite lookup_app_r by lia. rewrite lookup_app_l by lia.
    replace (length (tailor_header sg) + i - length (tailor_header sg))%nat
      with i by lia.
    by apply Hbody.
Qed.

End Tailoring.

(** C6, witness: the second line of three is no experience line. *)
Lemma tailor_keeps_trimmed_lines_witness :
  fst (@tailor_lines ascii_data
         (py "- shipped the app" ++ 0x0A :: py "  Education  " ++ 0x0A :: py "B.Sc.")
         (Suggestions.mk (py "Engineer") [] [py "Shipped the app to 3 stores"]))
    !! 3%nat
  = Some (py "Education").
Proof.
  apply (@tailor_keeps_trimmed_lines ascii_data
           (py "- shipped the app" ++ 0x0A :: py "  Education  " ++ 0x0A :: py "B.Sc.")
           (Suggestions.mk (py "Engineer") [] [py "Shipped the app to 3 stores"])
           1%nat (py "Education")).
  reflexivity.
Defined.

(** C6, counterexample. The original line "  Education" is not
    substituted (there is no rewritten entry at all), and the output is
    "Education": the line does not appear with its whitespace. *)
Lemma tailor_keeps_lines_counterexample :
  let text := py "  Education" in
  let sg := Suggestions.mk [] [] [] in
  splitlines text = [text]
  /\ snd (@tailor_lines ascii_data text sg) = 0%nat
  /\ @tailor_resume_text ascii_data text sg = py "Education"
  /\ text ∉ fst (@tailor_lines ascii_data text sg).
Proof.
  repeat split; try by vm_compute.
  intros H. vm_compute in H. apply list_elem_of_In in H. simpl in H.
  by destruct H as [?|[]].
Qed.

(** ** Claims on [call_gemini_flash] *)

Lemma startswith_app p s : startswith p (p ++ s) = true.
Proof.
  unfold startswith. induction p as [|c p IH]; simpl; [done|].
  by rewrite N.eqb_refl.
Qed.

Section Wrapper.
Import Llm.
Context {U : UnicodeData}.
Variable json_dumps : json -> str.
Variable requests_post : request -> post_result.

Lemma cli_rejects_marker rest : cli_accepts (FAILURE_MARKER ++ rest) = false.
Proof.
  unfold cli_accepts. by rewrite startswith_app, andb_false_r.
Qed.

(** C5, amended. With an API key at hand: when [requests.post] raises,
    and when the status is not 200, the wrapper returns a string that
    starts with "LLM request failed" (which the CLI rejects, falling back
    to the heuristic text); when the status is 200 and the body does not
    parse as JSON, it returns the body text as it is. *)
Theorem call_gemini_flash_failure_marker
    prompt api_key env_key key model max_output_tokens temp :
  resolve_key api_key env_key = Some key -> key <> [] ->
  let req := build_request prompt key model max_output_tokens temp in
  let out :=
    call_gemini_flash json_dumps requests_post prompt api_key env_key model
                      max_output_tokens temp in
  (forall e,
     requests_post req = PostRaises e ->
     exists msg, out = Return (JString msg)
                 /\ startswith FAILURE_MARKER msg = true
                 /\ cli_accepts msg = false)
  /\ (forall status_code text body,
        requests_post req = PostResponse status_code text body ->
        status_code <> 200%Z ->
        exists msg, out = Return (JString msg)
                    /\ startswith FAILURE_MARKER msg = true
                    /\ cli_accepts msg = false)
  /\ (forall text,
        requests_post req = PostResponse 200 text None ->
        out = Return (JString text)).
Proof.
  intros Hkey Hne req out. subst req out. unfold call_gemini_flash.
  rewrite Hkey. destruct key as [|c key]; [done|]. cbv beta iota zeta.
  split; [|split].
  - intros e ->. eexists. split; [done|].
    split; [apply startswith_app|apply cli_rejects_marker].
  - intros status_code text body -> Hst.
    rewrite (proj2 (Z.eqb_neq _ _) Hst). eexists. split; [done|].
    split; [apply startswith_app|apply cli_rejects_marker].
  - by intros text ->.
Qed.

End Wrapper.

(** C5, witness: the service answers 503. *)
Lemma call_gemini_flash_failure_marker_witness :
  exists msg,
    Llm.call_gemini_flash (fun _ => []) (fun _ => Llm.PostResponse 503 (py "busy") None)
      (py "Tailor the resume") (Some (py "k")) None Llm.DEFAULT_MODEL 1024 0.2%float
    = Llm.Return (Llm.JString msg)
    /\ startswith Llm.FAILURE_MARKER msg = true
    /\ @Llm.cli_accepts ascii_data msg = false.
Proof.
  refine (proj1 (proj2
    (@call_gemini_flash_failure_marker ascii_data (fun _ => [])
       (fun _ => Llm.PostResponse 503 (py "busy") None)
       (py "Tailor the resume") (Some (py "k")) None (py "k")
       Llm.DEFAULT_MODEL 1024 0.2%float eq_refl _)) 503%Z (py "busy") None eq_refl _);
    discriminate.
Defined.

(** C5, counterexample. The service answers 200 with a body that is not
    JSON: the wrapper returns the body, which does not start with the
    failure marker, and the CLI takes it for the tailored resume. *)
Lemma call_gemini_flash_parse_failure_counterexample :
  let text := py "<html>Service Unavailable</html>" in
  Llm.call_gemini_flash (fun _ => []) (fun _ => Llm.PostResponse 200 text None)
    (py "Tailor the resume") (Some (py "k")) None Llm.DEFAULT_MODEL 1024 0.2%float
  = Llm.Return (Llm.JString text)
  /\ startswith Llm.FAILURE_MARKER text = false
  /\ @Llm.cli_accepts ascii_data text = true.
Proof. repeat split; by vm_compute. Qed.

(** * Further properties of the code *)

(** ** [_lines] *)

Section Lines.
Implicit Types (s t : list N) (p : N -> bool).

Lemma lstrip_by_suffix p s :
  exists pre, s = pre ++ lstrip_by p s /\ Forall (fun c => p c = true) pre.
Proof.
  induction s as [|c s (pre & E & Hpre)]; [by exists []|]. simpl.
  destruct (p c) eqn:Hc; [|by exists []].
  exists (c :: pre). split; [by rewrite <- app_comm_cons, <- E|by constructor].
Qed.

Lemma lstrip_by_head p s c t : lstrip_by p s = c :: t -> p c = false.
Proof.
  induction s as [|x s IH]; simpl; [done|].
  destruct (p x) eqn:Hx; [done|]. by intros [= <- _].
Qed.

Lemma last_rev_hd s : last (rev s) = hd_error s.
Proof. destruct s as [|c s]; [done|]. simpl. by rewrite last_snoc. Qed.

Lemma hd_error_app_l s t : s <> [] -> hd_error (s ++ t) = hd_error s.
Proof. by destruct s. Qed.

(** [strip] leaves nothing more to strip. *)
Lemma strip_idem s : strip (strip s) = strip s.
Proof.
  destruct (strip s) as [|c u] eqn:Eu; [done|].
  assert (Hlast : exists d, last (c :: u) = Some d /\ isspace d = false).
  { unfold strip, rstrip_by in Eu.
    destruct (lstrip_by isspace (rev (lstrip_by isspace s))) as [|d w] eqn:Ew.
    { done. }
    exists d. split; [|by eapply lstrip_by_head].
    rewrite <- Eu, last_rev_hd. done. }
  assert (Hhd : isspace c = false).
  { unfold strip, rstrip_by in Eu.
    destruct (lstrip_by_suffix isspace (rev (lstrip_by isspace s)))
      as (pre & E & _).
    apply (f_equal (@rev _)) in E. rewrite rev_involutive, rev_app_distr, Eu in E.
    destruct (lstrip_by isspace s) as [|x t] eqn:Et; [done|].
    injection E as -> _. by eapply lstrip_by_head. }
  destruct Hlast as (d & Hd & Hd').
  by eapply strip_keeps.
Qed.

Lemma strip_all_space s :
  Forall (fun c => isspace c = true) s -> strip s = [].
Proof.
  intros H. rewrite <- (app_nil_r s). by rewrite strip_skip.
Qed.

Lemma forallb_Forall_true {A} (f : A -> bool) (l : list A) :
  forallb f l = true <-> Forall (fun x => f x = true) l.
Proof.
  rewrite forallb_forall, Forall_forall.
  by setoid_rewrite list_elem_of_In.
Qed.

(** No piece of [splitlines] holds a line boundary. *)
Lemma splitlines_no_linebreak s :
  Forall (fun l => forallb (fun c => negb (is_linebreak c)) l = true)
         (splitlines s).
Proof.
  remember (length s) as n eqn:Hn. revert s Hn.
  induction n as [n IH] using lt_wf_ind. intros [|c rest] Hn; simpl.
  { constructor. }
  simpl in Hn. destruct (is_linebreak c) eqn:Hc.
  - destruct rest as [|c' rest'].
    + by repeat constructor.
    + destruct ((c =? 0x0D) && (c' =? 0x0A)); constructor; try done.
      * apply (IH (length rest')); [simpl in Hn; lia|done].
      * apply (IH (length (c' :: rest'))); [lia|done].
  - pose proof (IH (length rest) ltac:(lia) rest eq_refl) as Hl.
    destruct (splitlines rest) as [|l ls].
    + repeat constructor. simpl. by rewrite Hc.
    + apply Forall_cons in Hl as [Hl Hls]. constructor; [|done].
      simpl. by rewrite Hc.
Qed.

Lemma _lines_all_ok text : Forall (fun l => line_ok l = true) (_lines text).
Proof.
  apply Forall_forall. intros l Hl. unfold _lines in Hl.
  apply list_elem_of_In, filter_In in Hl as [Hl Hne].
  apply in_map_iff in Hl as (l0 & <- & Hl0).
  unfold line_ok. rewrite Hne. unfold str_eqb.
  rewrite bool_decide_eq_true_2 by apply strip_idem. simpl.
  apply forallb_Forall_true, strip_Forall, forallb_Forall_true.
  pose proof (splitlines_no_linebreak text) as H.
  rewrite Forall_forall in H. by apply H, list_elem_of_In.
Qed.

Lemma _lines_blank text :
  Forall (fun c => isspace c = true) text -> _lines text = [].
Proof.
  intros H. unfold _lines.
  pose proof (splitlines_Forall _ _ H) as Hs.
  induction Hs as [|l ls Hl _ IH]; [done|].
  simpl. by rewrite (strip_all_space l Hl).
Qed.

End Lines.

(** X1. Every line [_lines] returns is non-empty, has no whitespace at
    its ends (it is its own [strip]) and holds no line-boundary
    character. *)
Theorem _lines_invariant (text : list N) :
  Forall (fun l => l <> []
                   /\ strip l = l
                   /\ Forall (fun c => is_linebreak c = false) l)
         (_lines text).
Proof.
  eapply Forall_impl; [apply _lines_all_ok|]. intros l Hl.
  unfold line_ok in Hl.
  apply andb_prop in Hl as [[H1 H2]%andb_prop H3].
  split; [by apply nonempty_true|]. split; [by apply bool_decide_eq_true in H2|].
  apply forallb_Forall_true in H3. eapply Forall_impl; [exact H3|].
  intros c. simpl. by destruct (is_linebreak c).
Qed.

(** X2. A text made of whitespace only (the empty text included) has no
    lines: [parse_resume] returns the empty summary, no skills and no
    experience, [parse_jd] the empty title, no skills and no
    responsibilities, and tailoring it with nothing to suggest gives the
    empty text. *)
Theorem blank_text_parses_empty {U : UnicodeData} (text : list N) :
  Forall (fun c => isspace c = true) text ->
  _lines text = []
  /\ parse_resume text = Resume.mk [] [] []
  /\ parse_jd text = JD.mk [] [] []
  /\ tailor_resume_text text (Suggestions.mk [] [] []) = [].
Proof.
  intros H. pose proof (_lines_blank text H) as E.
  split; [done|].
  unfold parse_resume, parse_jd, tailor_resume_text, tailor_lines.
  by rewrite E.
Qed.

(** X2, witness: spaces, a tab and line ends. *)
Lemma blank_text_parses_empty_witness :
  @parse_resume ascii_data [0x20; 0x20; 0x0A; 0x09; 0x0D; 0x0A; 0x20]
  = Resume.mk [] [] [].
Proof.
  apply (@blank_text_parses_empty ascii_data
           [0x20; 0x20; 0x0A; 0x09; 0x0D; 0x0A; 0x20]).
  by repeat constructor.
Defined.

(** ** What the two parsers return *)

Section ParserShape.
Context {U : UnicodeData}.

Lemma fold_left_invariant {A B} (f : A -> B -> A) (I : A -> Prop)
    (P : B -> Prop) (l : list B) (a : A) :
  (forall a b, P b -> I a -> I (f a b)) -> Forall P l -> I a ->
  I (fold_left f l a).
Proof.
  intros Hstep Hl. revert a. induction Hl as [|b l Hb _ IH]; simpl; [done|].
  intros a Ha. by apply IH, Hstep.
Qed.

(** The pieces of a split hold the characters of the line, and no
    separator. *)
Lemma split_on_pieces (P : N -> Prop) seps (line : list N) :
  Forall P line ->
  Forall (Forall (fun c => P c /\ mem c seps = false)) (split_on seps line).
Proof.
  induction 1 as [|c line Hc _ IH]; simpl; [by repeat constructor|].
  destruct (mem c seps) eqn:Hm; [by constructor|].
  destruct (split_on seps line) as [|l ls]; [by repeat constructor|].
  apply Forall_cons in IH as [Hl Hls]. constructor; [by constructor|done].
Qed.

(** The tokens cut out of a line: not empty, trimmed, made of characters
    of the line that are no separators. *)
Lemma tokens_shape (P : N -> Prop) seps (line : list N) :
  Forall P line ->
  Forall (fun t => nonempty t = true /\ strip t = t
                   /\ Forall (fun c => P c /\ mem c seps = false) t)
         (List.filter nonempty (map strip (split_on seps line))).
Proof.
  intros H. apply Forall_forall. intros t Ht.
  apply list_elem_of_In, filter_In in Ht as [Ht Hne].
  apply in_map_iff in Ht as (piece & <- & Hp).
  split; [done|]. split; [apply strip_idem|].
  apply strip_Forall.
  pose proof (split_on_pieces P seps line H) as Hs.
  rewrite Forall_forall in Hs. by apply Hs, list_elem_of_In.
Qed.

Lemma skill_tokens_clean (line : list N) :
  line_ok line = true ->
  Forall (fun t => clean_token t = true) (skill_tokens line).
Proof.
  intros [_ Hlb%forallb_Forall_true]%andb_prop.
  eapply Forall_impl; [apply (tokens_shape _ (py ";,|") line Hlb)|].
  intros t (Hne & Hs & Hc). unfold clean_token, str_eqb.
  rewrite Hne, bool_decide_eq_true_2 by done. cbn [andb].
  apply forallb_Forall_true. eapply Forall_impl; [exact Hc|].
  intros c [H1 H2]. cbv beta in *. by rewrite H2, H1.
Qed.

Lemma resume_step_skills_clean st (line : list N) :
  line_ok line = true ->
  Forall (fun t => clean_token t = true) (acc_skills st) ->
  Forall (fun t => clean_token t = true) (acc_skills (resume_step st line)).
Proof.
  intros Hl Hst. unfold resume_step.
  destruct (resume_header (lower line)); [done|].
  destruct (acc_section st) as [[]|]; simpl; try done;
    try (by repeat case_match).
  apply Forall_app. split; [done|by apply skill_tokens_clean].
Qed.

(** What a step does to the summary lines: nothing, or it appends the
    line, which then is no header, shorter than 40 words, and the fourth
    line at most. *)
Lemma resume_step_summary st (line : list N) :
  acc_summary_lines (resume_step st line) = acc_summary_lines st
  \/ (acc_summary_lines (resume_step st line) = acc_summary_lines st ++ [line]
      /\ (length (acc_summary_lines st) < 3)%nat
      /\ (length (split_ws line) < 40)%nat
      /\ resume_header (lower line) = None).
Proof.
  unfold resume_step.
  destruct (resume_header (lower line)) eqn:Hh; [by left|].
  destruct (acc_section st) as [[]|]; simpl; try (by left);
    (destruct (_ || any_verb _); [by left|]);
    (destruct ((length (acc_summary_lines st) <? 3)%nat
               && (length (split_ws line) <? 40)%nat) eqn:Hc; [|by left]);
    apply andb_prop in Hc as [?%Nat.ltb_lt ?%Nat.ltb_lt]; by right.
Qed.

Lemma resume_fold_summary (lines : list (list N)) st :
  (length (acc_summary_lines st) <= 3)%nat ->
  exists extra,
    acc_summary_lines (fold_left resume_step lines st)
    = acc_summary_lines st ++ extra
    /\ sublist extra lines
    /\ (length (acc_summary_lines st ++ extra) <= 3)%nat
    /\ Forall (fun l => (length (split_ws l) < 40)%nat
                        /\ resume_header (lower l) = None) extra.
Proof.
  revert st. induction lines as [|l lines IH]; intros st Hlen; simpl.
  - exists []. rewrite app_nil_r.
    split; [done|]. split; [constructor|]. split; [done|constructor].
  - destruct (resume_step_summary st l) as [E|(E & H3 & Hw & Hh)].
    + destruct (IH (resume_step st l)) as (extra & E' & Hsub & Hlen' & Hall);
        [by rewrite E|].
      exists extra. rewrite E', E in *. repeat split; try done.
      by apply sublist_cons.
    + destruct (IH (resume_step st l)) as (extra & E' & Hsub & Hlen' & Hall).
      { rewrite E, length_app. simpl. lia. }
      exists (l :: extra). rewrite E', E, <- !app_assoc in *.
      repeat split; try done; [by apply sublist_skip|by constructor].
Qed.

End ParserShape.

(** X3. Every skill [parse_resume] returns is a clean token: not empty,
    without whitespace at its ends, without [;], [,], [|] and without a
    line boundary. *)
Theorem parse_resume_skills_clean {U : UnicodeData} (text : list N) :
  Forall (fun t => clean_token t = true) (Resume.skills (parse_resume text)).
Proof.
  unfold parse_resume. cbn [Resume.skills].
  apply (fold_left_invariant resume_step
           (fun st => Forall (fun t => clean_token t = true) (acc_skills st))
           (fun l => line_ok l = true)).
  - intros st l. apply resume_step_skills_clean.
  - apply _lines_all_ok.
  - constructor.
Qed.

(** X4. The summary [parse_resume] returns is the [strip] of the space
    join of at most three lines of the text, taken in their order; each
    of them has fewer than 40 words and is no section header. *)
Theorem parse_resume_summary_lines {U : UnicodeData} (text : list N) :
  exists chosen,
    Resume.summary (parse_resume text) = strip (join (py " ") chosen)
    /\ sublist chosen (_lines text)
    /\ (length chosen <= 3)%nat
    /\ Forall (fun l => (length (split_ws l) < 40)%nat
                        /\ resume_header (lower l) = None) chosen.
Proof.
  unfold parse_resume. cbn [Resume.summary].
  destruct (resume_fold_summary (_lines text)
              {| acc_section := None; acc_summary_lines := [];
                 acc_skills := []; acc_experience := [] |})
    as (extra & E & Hsub & Hlen & Hall); [simpl; lia|].
  exists extra. by rewrite E.
Qed.

Section Sections.
Context {U : UnicodeData}.

(** Inside the skills or the experience section, lines that open no
    section are all taken the same way. *)
Lemma resume_fold_in_section (ls : list (list N)) st sec :
  acc_section st = Some sec -> sec = SecSkills \/ sec = SecExperience ->
  Forall (fun l => resume_header (lower l) = None) ls ->
  fold_left resume_step ls st
  = {| acc_section := Some sec;
       acc_summary_lines := acc_summary_lines st;
       acc_skills :=
         acc_skills st
         ++ match sec with SecSkills => flat_map skill_tokens ls | _ => [] end;
       acc_experience :=
         acc_experience st
         ++ match sec with SecExperience => ls | _ => [] end |}.
Proof.
  intros Hsec Hkind Hls. revert st Hsec.
  induction Hls as [|l ls Hl _ IH]; intros st Hsec.
  - destruct st, Hkind as [-> | ->]; simpl in *; by rewrite Hsec, !app_nil_r.
  - cbn [fold_left]. rewrite IH.
    + unfold resume_step. rewrite Hl, Hsec.
      destruct Hkind as [-> | ->]; simpl; by rewrite <- ?app_assoc.
    + unfold resume_step. rewrite Hl, Hsec. by destruct Hkind as [-> | ->].
Qed.

Lemma jd_step_header sec skills resps (line : list N) kind :
  jd_header (lower line) = Some kind ->
  jd_step (sec, skills, resps) line = (Some kind, skills, resps).
Proof.
  unfold jd_header, jd_step. intros H.
  destruct (_ || contains (py "technologies") _); [by injection H as <-|].
  destruct (_ || contains (py "what you will") _); [by injection H as <-|done].
Qed.

Lemma jd_step_in_section sec skills resps (line : list N) :
  jd_header (lower line) = None ->
  sec = SecSkills \/ sec = SecResponsibilities ->
  jd_step (Some sec, skills, resps) line
  = (Some sec,
     skills ++ match sec with SecSkills => skill_tokens line | _ => [] end,
     resps ++ match sec with SecResponsibilities => [line] | _ => [] end).
Proof.
  unfold jd_header, jd_step. intros H Hkind.
  destruct (_ || contains (py "technologies") _); [done|].
  destruct (_ || contains (py "what you will") _); [done|].
  destruct Hkind as [-> | ->]; by rewrite app_nil_r.
Qed.

Lemma jd_fold_in_section (ls : list (list N)) sec skills resps :
  sec = SecSkills \/ sec = SecResponsibilities ->
  Forall (fun l => jd_header (lower l) = None) ls ->
  fold_left jd_step ls (Some sec, skills, resps)
  = (Some sec,
     skills ++ match sec with SecSkills => flat_map skill_tokens ls | _ => [] end,
     resps ++ match sec with SecResponsibilities => ls | _ => [] end).
Proof.
  intros Hkind Hls. revert skills resps.
  induction Hls as [|l ls Hl _ IH]; intros skills resps.
  - destruct Hkind as [-> | ->]; simpl; by rewrite !app_nil_r.
  - cbn [fold_left]. rewrite jd_step_in_section, IH by done.
    destruct Hkind as [-> | ->]; simpl; by rewrite <- ?app_assoc, ?app_nil_r.
Qed.

(** X5. When the first line of a resume opens the skills or the
    experience section and no later line opens a section, every later
    line is taken for that section: the skills are the tokens of the
    lines in order, or the experience is the lines themselves; nothing
    goes to the summary. *)
Theorem parse_resume_single_section (text h : list N) (ls : list (list N)) sec :
  _lines text = h :: ls ->
  resume_header (lower h) = Some sec ->
  sec = SecSkills \/ sec = SecExperience ->
  Forall (fun l => resume_header (lower l) = None) ls ->
  parse_resume text
  = {| Resume.summary := [];
       Resume.skills :=
         match sec with SecSkills => flat_map skill_tokens ls | _ => [] end;
       Resume.experience :=
         match sec with SecExperience => ls | _ => [] end |}.
Proof.
  intros Hlines Hh Hkind Hls. unfold parse_resume. rewrite Hlines.
  cbn [fold_left]. rewrite (resume_step_header _ _ _ Hh).
  by rewrite (resume_fold_in_section ls _ sec).
Qed.

(** X6. In a job description whose second line opens the skills or the
    responsibilities section and whose later lines open none, the title
    is the first line, and the later lines give the skill tokens in
    order, or are the responsibilities themselves. *)
Theorem parse_jd_single_section (text t h : list N) (ls : list (list N)) sec :
  _lines text = t :: h :: ls ->
  jd_header (lower h) = Some sec ->
  sec = SecSkills \/ sec = SecResponsibilities ->
  Forall (fun l => jd_header (lower l) = None) ls ->
  parse_jd text
  = {| JD.title := t;
       JD.skills :=
         match sec with SecSkills => flat_map skill_tokens ls | _ => [] end;
       JD.responsibilities :=
         match sec with SecResponsibilities => ls | _ => [] end |}.
Proof.
  intros Hlines Hh Hkind Hls. unfold parse_jd. rewrite Hlines.
  cbn [tail hd fold_left]. rewrite (jd_step_header _ _ _ _ _ Hh).
  by rewrite (jd_fold_in_section ls sec).
Qed.

End Sections.

(** X5, witness: a skills header and two lines of skills. *)
Lemma parse_resume_single_section_witness :
  @parse_resume ascii_data
    (py "Skills:" ++ 0x0A :: py "Python, SQL" ++ 0x0A :: py "Docker | Go")
  = Resume.mk [] [py "Python"; py "SQL"; py "Docker"; py "Go"] [].
Proof.
  apply (@parse_resume_single_section ascii_data _ (py "Skills:")
           [py "Python, SQL"; py "Docker | Go"] SecSkills).
  - reflexivity.
  - reflexivity.
  - by left.
  - by repeat constructor.
Defined.

(** X6, witness: a title, a responsibilities header and two lines. *)
Lemma parse_jd_single_section_witness :
  @parse_jd ascii_data
    (py "Backend Engineer" ++ 0x0A :: py "What you will do" ++ 0x0A
       :: py "Ship services, fast" ++ 0x0A :: py "Mentor others")
  = JD.mk (py "Backend Engineer") []
          [py "Ship services, fast"; py "Mentor others"].
Proof.
  apply (@parse_jd_single_section ascii_data _ (py "Backend Engineer")
           (py "What you will do")
           [py "Ship services, fast"; py "Mentor others"] SecResponsibilities).
  - reflexivity.
  - reflexivity.
  - by right.
  - by repeat constructor.
Defined.

Section JdShape.
Context {U : UnicodeData}.

Lemma mem_comma_of_seps c : mem c (py ";,|") = false -> c <> 0x2C.
Proof. intros H ->. done. Qed.

(** One step of [parse_jd]: it appends skill tokens, each not empty,
    trimmed and free of commas and line boundaries, and at most the line
    itself to the responsibilities. *)
Lemma jd_step_shape sec skills resps (line : list N) :
  line_ok line = true ->
  exists sec' new_skills new_resps,
    jd_step (sec, skills, resps) line
    = (sec', skills ++ new_skills, resps ++ new_resps)
    /\ Forall (fun t => t <> [] /\ strip t = t
                        /\ Forall (fun c => is_linebreak c = false /\ c <> 0x2C) t)
              new_skills
    /\ (new_resps = []
        \/ (new_resps = [line] /\ jd_header (lower line) = None)).
Proof.
  intros [_ Hlb%forallb_Forall_true]%andb_prop.
  assert (Hlb' : Forall (fun c => is_linebreak c = false) line).
  { eapply Forall_impl; [exact Hlb|]. intros c. simpl.
    by destruct (is_linebreak c). }
  assert (Htok : forall seps,
             (forall c, mem c seps = false -> c <> 0x2C) ->
             Forall (fun t => t <> [] /\ strip t = t
                              /\ Forall (fun c => is_linebreak c = false /\ c <> 0x2C) t)
                    (List.filter nonempty (map strip (split_on seps line)))).
  { intros seps Hseps.
    eapply Forall_impl; [apply (tokens_shape _ seps line Hlb')|].
    intros t (Hne & Hs & Hc). split; [by apply nonempty_true|]. split; [done|].
    eapply Forall_impl; [exact Hc|]. intros c [? ?]. split; [done|by apply Hseps]. }
  assert (Hinline : forall sec0 : option section,
             exists new_skills new_resps,
               (if mem 0x2C line && (length line <? 120)%nat
                then
                  let parts :=
                    List.filter nonempty (map strip (split_on [0x2C] line)) in
                  if (1 <? length parts)%nat
                  then (sec0, skills ++ parts, resps)
                  else (sec0, skills, resps)
                else (sec0, skills, resps))
               = (sec0, skills ++ new_skills, resps ++ new_resps)
               /\ Forall (fun t => t <> [] /\ strip t = t
                                   /\ Forall (fun c => is_linebreak c = false
                                                       /\ c <> 0x2C) t)
                         new_skills
               /\ (new_resps = []
                   \/ (new_resps = [line] /\ jd_header (lower line) = None))).
  { intros sec0. destruct (mem 0x2C line && _); cbv zeta.
    - destruct (1 <? _)%nat.
      + exists (List.filter nonempty (map strip (split_on [0x2C] line))), [].
        rewrite app_nil_r. split; [done|]. split; [|by left].
        apply Htok. intros c Hc ->. done.
      + exists [], []. rewrite !app_nil_r.
        split; [done|]. split; [constructor|by left].
    - exists [], []. rewrite !app_nil_r.
      split; [done|]. split; [constructor|by left]. }
  unfold jd_step. unfold jd_header in *.
  destruct (_ || contains (py "technologies") _).
  { exists (Some SecSkills), [], []. rewrite !app_nil_r.
    split; [done|]. split; [constructor|by left]. }
  destruct (_ || contains (py "what you will") _).
  { exists (Some SecResponsibilities), [], []. rewrite !app_nil_r.
    split; [done|]. split; [constructor|by left]. }
  destruct sec as [[]|].
  - exists (Some SecSkills), (skill_tokens line), []. rewrite app_nil_r.
    split; [done|]. split; [|by left].
    apply Htok. apply mem_comma_of_seps.
  - exists (Some SecExperience). apply Hinline.
  - exists (Some SecSummary). apply Hinline.
  - exists (Some SecResponsibilities), [], [line]. rewrite app_nil_r.
    split; [done|]. split; [constructor|by right].
  - exists None. apply Hinline.
Qed.

Lemma jd_fold_shape (ls : list (list N)) sec skills resps :
  Forall (fun l => line_ok l = true) ls ->
  exists sec' new_skills new_resps,
    fold_left jd_step ls (sec, skills, resps)
    = (sec', skills ++ new_skills, resps ++ new_resps)
    /\ Forall (fun t => t <> [] /\ strip t = t
                        /\ Forall (fun c => is_linebreak c = false /\ c <> 0x2C) t)
              new_skills
    /\ sublist new_resps ls
    /\ Forall (fun l => jd_header (lower l) = None) new_resps.
Proof.
  intros Hls. revert sec skills resps.
  induction Hls as [|l ls Hl _ IH]; intros sec skills resps.
  - exists sec, [], []. rewrite !app_nil_r.
    split; [done|]. split; [constructor|]. split; constructor.
  - cbn [fold_left].
    destruct (jd_step_shape sec skills resps l Hl)
      as (sec1 & sk1 & rs1 & E1 & Hsk1 & Hrs1).
    destruct (IH sec1 (skills ++ sk1) (resps ++ rs1))
      as (sec2 & sk2 & rs2 & E2 & Hsk2 & Hsub & Hrs2).
    exists sec2, (sk1 ++ sk2), (rs1 ++ rs2).
    rewrite E1, E2, <- !app_assoc. split; [done|].
    split; [by apply Forall_app|].
    destruct Hrs1 as [-> | [-> Hh]]; simpl.
    + split; [by apply sublist_cons|done].
    + split; [by apply sublist_skip|by constructor].
Qed.

(** X7. What [parse_jd] returns for every text: the title is the first
    line (empty when there is none); every skill is not empty, has no
    whitespace at its ends and holds no comma and no line boundary; the
    responsibilities are lines after the first, in their order, none of
    which opens a section. *)
Theorem parse_jd_shape (text : list N) :
  let jd := parse_jd text in
  JD.title jd = hd [] (_lines text)
  /\ Forall (fun t => t <> [] /\ strip t = t
                      /\ Forall (fun c => is_linebreak c = false /\ c <> 0x2C) t)
            (JD.skills jd)
  /\ sublist (JD.responsibilities jd) (tail (_lines text))
  /\ Forall (fun l => jd_header (lower l) = None) (JD.responsibilities jd).
Proof.
  unfold parse_jd.
  assert (Hok : Forall (fun l => line_ok l = true) (tail (_lines text))).
  { pose proof (_lines_all_ok text) as H. destruct (_lines text); [done|].
    by apply Forall_cons in H as [_ ?]. }
  destruct (jd_fold_shape (tail (_lines text)) None [] [] Hok)
    as (sec & sk & rs & E & Hsk & Hsub & Hrs).
  rewrite E. done.
Qed.

End JdShape.

(** ** [match_and_score] as a function of the two skill sets *)

Section MatchingSets.
Context {U : UnicodeData}.
Implicit Types (resume : Resume.t) (jd : JD.t).

Lemma list_to_set_ext (l k : list (list N)) :
  (forall s, s ∈ l <-> s ∈ k) ->
  (list_to_set l : gset (list N)) = list_to_set k.
Proof.
  intros H. apply set_eq. intros s. by rewrite !elem_of_list_to_set.
Qed.

Lemma missing_NoDup resume jd : NoDup (snd (match_and_score resume jd)).
Proof.
  unfold match_and_score. case_decide; simpl; [constructor|].
  rewrite merge_sort_Permutation. apply NoDup_elements.
Qed.

(** X8. The result depends on the two lists of skills only through
    their sets of lowercased skills: order, repetition and letter case do
    not matter. *)
Theorem match_and_score_set_invariant resume resume' jd jd' :
  (forall s, s ∈ map lower (Resume.skills resume)
             <-> s ∈ map lower (Resume.skills resume')) ->
  (forall s, s ∈ map lower (JD.skills jd) <-> s ∈ map lower (JD.skills jd')) ->
  match_and_score resume jd = match_and_score resume' jd'.
Proof.
  intros Hr Hj. unfold match_and_score.
  by rewrite (list_to_set_ext _ _ Hr), (list_to_set_ext _ _ Hj).
Qed.

(** X9. [missing] is empty exactly when every job-description skill is,
    up to letter case, a resume skill; it never repeats a skill and never
    has more entries than the job description has skills. *)
Theorem missing_empty_iff_covered resume jd :
  let missing := snd (match_and_score resume jd) in
  (missing = []
   <-> forall s, s ∈ map lower (JD.skills jd)
                 -> s ∈ map lower (Resume.skills resume))
  /\ NoDup missing
  /\ (length missing <= length (JD.skills jd))%nat.
Proof.
  intros missing. split; [|split].
  - split.
    + intros E s Hs.
      destruct (decide (s ∈ map lower (Resume.skills resume))) as [|Hn]; [done|].
      assert (s ∈ missing) as Hm by (by apply missing_elem).
      rewrite E in Hm. by apply elem_of_nil in Hm.
    + intros H. destruct missing as [|s l] eqn:E; [done|].
      assert (s ∈ snd (match_and_score resume jd)) as Hm
        by (fold missing; rewrite E; left).
      apply missing_elem in Hm as [Hj Hr]. by apply H in Hj.
  - apply missing_NoDup.
  - rewrite <- (length_map lower (JD.skills jd)).
    apply submseteq_length, NoDup_submseteq; [apply missing_NoDup|].
    intros s Hs. by apply missing_elem in Hs as [? _].
Qed.

(** X10. Adding skills to the resume never adds to [missing]: when every
    skill of [resume] is a skill of [resume'], every skill missing for
    [resume'] was missing for [resume]. *)
Theorem missing_antitone resume resume' jd :
  (forall s, s ∈ Resume.skills resume -> s ∈ Resume.skills resume') ->
  forall s, s ∈ snd (match_and_score resume' jd)
            -> s ∈ snd (match_and_score resume jd).
Proof.
  intros Hsub s [Hj Hr]%missing_elem. apply missing_elem. split; [done|].
  intros Hin. apply Hr.
  apply list_elem_of_In, in_map_iff in Hin as (x & <- & Hx).
  apply list_elem_of_In, in_map, list_elem_of_In, Hsub. by apply list_elem_of_In.
Qed.

End MatchingSets.

(** X8, witness: the same skills in another order, case and number. *)
Lemma match_and_score_set_invariant_witness :
  @match_and_score ascii_data
    (Resume.mk [] [py "Python"; py "SQL"; py "python"] [])
    (JD.mk [] [py "Java"; py "SQL"] [])
  = @match_and_score ascii_data
      (Resume.mk [] [py "sql"; py "PYTHON"] [])
      (JD.mk [] [py "sql"; py "java"; py "JAVA"] []).
Proof.
  apply (@match_and_score_set_invariant ascii_data).
  - intros s. vm_compute map. rewrite !elem_of_cons. tauto.
  - intros s. vm_compute map. rewrite !elem_of_cons. tauto.
Defined.

(** X10, witness: the resume gains Docker. *)
Lemma missing_antitone_witness :
  py "java" ∈ snd (@match_and_score ascii_data
                     (Resume.mk [] [py "Python"] [])
                     (JD.mk [] [py "Java"; py "Docker"] [])).
Proof.
  apply (@missing_antitone ascii_data
           (Resume.mk [] [py "Python"] [])
           (Resume.mk [] [py "Python"; py "Docker"] [])).
  - intros s. simpl. rewrite !elem_of_cons. tauto.
  - vm_compute. left.
Defined.

(** ** The rewritten bullets and the suggested summary *)

Section Rewriting.
Context {U : UnicodeData}.

Lemma METRIC_HINT_length : length METRIC_HINT = 81%nat.
Proof. reflexivity. Qed.

Lemma rewrite_bullet_cases (b : list N) :
  (Forall (fun c => isdecimal c = false) b /\ rewrite_bullet b = b ++ METRIC_HINT)
  \/ (Exists (fun c => isdecimal c = true) b
      /\ rewrite_bullet b
         = if (length b <? 240)%nat then b else take 240 b ++ py "...").
Proof.
  destruct (findall_nums b) as [|m ms] eqn:E.
  - left. split; [|unfold rewrite_bullet; by rewrite E].
    apply Forall_forall. intros c Hc.
    destruct (isdecimal c) eqn:Hd; [|done]. exfalso.
    assert (findall_nums b <> []) as Hne; [|by rewrite E in Hne].
    apply findall_nums_found, Exists_exists. eauto.
  - right. split.
    + apply findall_nums_found. by rewrite E.
    + apply rewrite_bullet_numeric. by rewrite E.
Qed.

(** X11. A bullet gets the metric hint appended exactly when it holds
    no decimal digit. *)
Theorem rewrite_bullet_hint_iff (b : list N) :
  rewrite_bullet b = b ++ METRIC_HINT
  <-> Forall (fun c => isdecimal c = false) b.
Proof.
  split.
  - intros E. destruct (rewrite_bullet_cases b) as [[H _]|[_ E']]; [done|].
    exfalso. rewrite E in E'. apply (f_equal (@length _)) in E'.
    rewrite length_app, METRIC_HINT_length in E'.
    destruct (Nat.ltb_spec (length b) 240); [lia|].
    rewrite length_app, length_take in E'.
    change (length (py "...")) with 3%nat in E'. lia.
  - intros H. destruct (rewrite_bullet_cases b) as [[_ E]|[Hex _]]; [done|].
    exfalso. apply Exists_exists in Hex as (c & Hc & Hd).
    rewrite Forall_forall in H. apply H in Hc. congruence.
Qed.

Lemma rewrite_bullet_prefix (b : list N) :
  take 240 b `prefix_of` rewrite_bullet b
  /\ (Exists (fun c => isdecimal c = true) b ->
      (length (rewrite_bullet b) <= 243)%nat).
Proof.
  destruct (rewrite_bullet_cases b) as [[Hno ->]|[Hex ->]].
  - split.
    + exists (drop 240 b ++ METRIC_HINT). by rewrite app_assoc, take_drop.
    + intros Hex. exfalso. apply Exists_exists in Hex as (c & Hc & Hd).
      rewrite Forall_forall in Hno. apply Hno in Hc. congruence.
  - destruct (Nat.ltb_spec (length b) 240) as [Hlt|Hge].
    + split; [by rewrite take_ge by lia|lia].
    + split; [by exists (py "...")|].
      intros _. rewrite length_app, length_take.
      change (length (py "...")) with 3%nat. lia.
Qed.

(** X12. For a cap [max_suggestions >= 0] the rewritten bullets are as
    many as the smaller of the cap and the number of experience bullets;
    the entry at position [i] starts with the first 240 characters of
    bullet [i], and is at most 243 characters long when that bullet holds
    a decimal digit. *)
Theorem rewritten_experience_cap resume jd (max_suggestions : Z) :
  (0 <= max_suggestions)%Z ->
  let rewritten :=
    Suggestions.rewritten_experience
      (suggest_resume_updates resume jd max_suggestions) in
  length rewritten
  = Nat.min (Z.to_nat max_suggestions) (length (Resume.experience resume))
  /\ forall i b,
       (i < Z.to_nat max_suggestions)%nat ->
       Resume.experience resume !! i = Some b ->
       exists r, rewritten !! i = Some r
                 /\ take 240 b `prefix_of` r
                 /\ (Exists (fun c => isdecimal c = true) b ->
                     (length r <= 243)%nat).
Proof.
  intros Hmax rewritten.
  assert (E : rewritten
              = rewrite_bullet
                  <$> take (Z.to_nat max_suggestions) (Resume.experience resume)).
  { subst rewritten. unfold suggest_resume_updates.
    destruct (match_and_score resume jd).
    cbn [Suggestions.rewritten_experience]. by rewrite slice_to_nonneg. }
  rewrite E. split.
  - by rewrite length_fmap, length_take.
  - intros i b Hi Hb. exists (rewrite_bullet b).
    rewrite list_lookup_fmap, lookup_take_lt, Hb by done.
    split; [done|]. apply rewrite_bullet_prefix.
Qed.

Lemma join_head sep (a : list N) (rest : list (list N)) :
  a `prefix_of` join sep (a :: rest).
Proof.
  destruct rest as [|b rest]; [done|]. rewrite join_cons. by eexists.
Qed.

(** X13. When the job description has a title, the text the heuristic
    tailoring produces from the suggestions of [suggest_resume_updates]
    begins with that title, whatever the resume. *)
Theorem tailored_text_starts_with_title (text : list N) resume jd
    (max_suggestions : Z) :
  JD.title jd <> [] ->
  startswith (JD.title jd)
    (tailor_resume_text text (suggest_resume_updates resume jd max_suggestions))
  = true.
Proof.
  intros Ht.
  set (sg := suggest_resume_updates resume jd max_suggestions).
  assert (exists rest, Suggestions.suggested_summary sg = JD.title jd ++ rest)
    as [rest Esum].
  { subst sg. unfold suggest_resume_updates.
    destruct (match_and_score resume jd). cbn [Suggestions.suggested_summary].
    destruct (JD.title jd) as [|c t]; [done|]. cbn [nonempty].
    destruct (nonempty (Resume.summary resume)); by eexists. }
  unfold tailor_resume_text.
  destruct (tailor_lines_shape text sg) as (body & _ & _ & E).
  rewrite E. cbn [fst].
  assert (exists more, tailor_header sg
                       = Suggestions.suggested_summary sg :: more)
    as [more Eh].
  { unfold tailor_header. rewrite Esum.
    destruct (JD.title jd) as [|c t]; [done|]. cbn [nonempty app].
    destruct (Suggestions.add_skills sg); by eexists. }
  rewrite Eh, <- app_comm_cons.
  destruct (join_head [0x0A] (Suggestions.suggested_summary sg)
              (more ++ body
               ++ (if (count_experience_lines (_lines text)
                       <? length (Suggestions.rewritten_experience sg))%nat
                   then [[]; EXPERIENCE_HEADING]
                        ++ map (fun r => py "- " ++ r)
                             (drop (count_experience_lines (_lines text))
                                (Suggestions.rewritten_experience sg))
                   else []))) as [tl ->].
  rewrite Esum, <- app_assoc. apply startswith_app.
Qed.

End Rewriting.

(** X12, witness: three bullets under a cap of two. *)
Lemma rewritten_experience_cap_witness :
  length
    (Suggestions.rewritten_experience
       (@suggest_resume_updates ascii_data
          (Resume.mk [] [] [py "Led a team of 5"; py "Built tools"; py "Shipped"])
          (JD.mk [] [] []) 2))
  = 2%nat.
Proof.
  apply (@rewritten_experience_cap ascii_data
           (Resume.mk [] [] [py "Led a team of 5"; py "Built tools"; py "Shipped"])
           (JD.mk [] [] []) 2).
  lia.
Defined.

(** X13, witness: a titled job description and a one-line resume. *)
Lemma tailored_text_starts_with_title_witness :
  startswith (py "Data Engineer")
    (@tailor_resume_text ascii_data (py "Built pipelines")
       (@suggest_resume_updates ascii_data
          (Resume.mk (py "Five years in data.") [] [py "Built pipelines"])
          (JD.mk (py "Data Engineer") [py "spark"] []) 6))
  = true.
Proof.
  apply (@tailored_text_starts_with_title ascii_data (py "Built pipelines")
           (Resume.mk (py "Five years in data.") [] [py "Built pipelines"])
           (JD.mk (py "Data Engineer") [py "spark"] []) 6).
  discriminate.
Defined.

(** ** The coaching questions as a prefix of one sequence *)

Section CoachingPrefix.
Context {U : UnicodeData}.

Lemma take_repeat {A} (x : A) (m n : nat) :
  take m (repeat x n) = repeat x (Nat.min m n).
Proof.
  revert n. induction m as [|m IH]; intros [|n]; simpl; try done.
  by rewrite IH.
Qed.

(** For [n >= 0] the result is the first [n] entries of: the questions
    for all skills, those for all responsibilities, the generic one
    repeated. *)
Lemma coaching_questions_stream jd n (extra : nat) :
  (0 <= n)%Z ->
  generate_coaching_questions jd n
  = take (Z.to_nat n)
      (map skill_question (JD.skills jd)
       ++ map responsibility_question (JD.responsibilities jd)
       ++ repeat generic_question (Z.to_nat n + extra)).
Proof.
  intros Hn. unfold generate_coaching_questions. rewrite pad_questions_spec.
  set (k := Z.to_nat n).
  assert (Es : map skill_question
                 match JD.skills jd with
                 | [] => []
                 | _ :: _ => slice_to (JD.skills jd) n
                 end = take k (map skill_question (JD.skills jd))).
  { rewrite firstn_map, <- (slice_to_nonneg _ n Hn).
    destruct (JD.skills jd); [|done]. by rewrite slice_to_nonneg, take_nil. }
  rewrite Es, slice_to_nonneg by lia.
  rewrite !take_app, take_repeat, <- app_assoc, <- firstn_map.
  repeat rewrite ?length_app, ?length_take, ?length_map.
  f_equal. f_equal; f_equal; lia.
Qed.

(** X14. Asking for more questions only appends: for [0 <= n <= m] the
    [n] questions are the first [n] of the [m] questions. *)
Theorem coaching_questions_prefix jd (n m : Z) :
  (0 <= n <= m)%Z ->
  generate_coaching_questions jd n
  = take (Z.to_nat n) (generate_coaching_questions jd m).
Proof.
  intros [Hn Hm].
  rewrite (coaching_questions_stream jd n (Z.to_nat m - Z.to_nat n)) by done.
  rewrite (coaching_questions_stream jd m 0) by lia.
  rewrite take_take, Nat.add_0_r. do 4 f_equal; lia.
Qed.

End CoachingPrefix.

(** X14, witness: two questions against eight. *)
Lemma coaching_questions_prefix_witness :
  @generate_coaching_questions ascii_data
    (JD.mk (py "Engineer") [py "python"; py "sql"; py "docker"]
           [py "Build services."]) 2
  = take 2
      (@generate_coaching_questions ascii_data
         (JD.mk (py "Engineer") [py "python"; py "sql"; py "docker"]
                [py "Build services."]) 8).
Proof.
  apply (@coaching_questions_prefix ascii_data
           (JD.mk (py "Engineer") [py "python"; py "sql"; py "docker"]
                  [py "Build services."]) 2 8).
  lia.
Defined.

(** ** Tailoring: the plain rendering, and no entry lost *)

Section TailoringMore.
Context {U : UnicodeData}.

Lemma splitlines_single (s : list N) :
  s <> [] -> forallb (fun c => negb (is_linebreak c)) s = true ->
  splitlines s = [s].
Proof.
  induction s as [|c s IH]; [done|]. intros _ [Hc Hs]%andb_prop.
  apply negb_true_iff in Hc. simpl. rewrite Hc.
  destruct s as [|c' s]; [done|]. by rewrite IH.
Qed.

(** Joining lines of the kind [_lines] yields and splitting again gives
    the lines back. *)
Lemma _lines_join (ls : list (list N)) :
  Forall (fun l => line_ok l = true) ls -> _lines (join [0x0A] ls) = ls.
Proof.
  induction 1 as [|l ls Hl Hls IH]; [done|].
  apply andb_prop in Hl as [[Hne Hs%bool_decide_eq_true]%andb_prop Hlb].
  destruct ls as [|l2 ls].
  - unfold _lines. cbn [join].
    rewrite splitlines_single; [|by apply nonempty_true|done].
    cbn [map List.filter]. by rewrite Hs, Hne.
  - rewrite join_cons. change ([0x0A] ++ ?x) with (0x0A :: x).
    unfold _lines. rewrite splitlines_line by done.
    cbn [map List.filter]. rewrite Hs, Hne. f_equal. apply IH.
Qed.

Lemma tailor_lines_plain (text : list N) :
  fst (tailor_lines text (Suggestions.mk [] [] [])) = _lines text.
Proof.
  destruct (tailor_lines_shape text (Suggestions.mk [] [] []))
    as (body & Hlen & Hbody & E).
  rewrite E. cbn [fst Suggestions.rewritten_experience length].
  change (tailor_header (Suggestions.mk [] [] [])) with (@nil (list N)).
  rewrite (proj2 (Nat.ltb_ge _ 0)) by lia.
  rewrite app_nil_r. cbn [app].
  apply list_eq_same_length with (length body); [done|done|].
  intros i x y Hi Hx Hy.
  specialize (Hbody i y Hy). cbv zeta in Hbody.
  cbn [Suggestions.rewritten_experience length] in Hbody.
  rewrite (proj2 (Nat.ltb_ge _ 0)) in Hbody by lia.
  rewrite andb_false_r in Hbody. congruence.
Qed.

(** X15. With nothing to suggest, the tailored text is the trimmed
    non-blank lines of the original joined by line feeds; it has the same
    lines as the original, so both parsers read it as they read the
    original, and tailoring it again changes nothing. *)
Theorem tailor_plain_roundtrip (text : list N) :
  let plain := tailor_resume_text text (Suggestions.mk [] [] []) in
  plain = join [0x0A] (_lines text)
  /\ _lines plain = _lines text
  /\ parse_resume plain = parse_resume text
  /\ parse_jd plain = parse_jd text
  /\ tailor_resume_text plain (Suggestions.mk [] [] []) = plain.
Proof.
  intros plain.
  assert (E : plain = join [0x0A] (_lines text)).
  { subst plain. unfold tailor_resume_text. by rewrite tailor_lines_plain. }
  assert (El : _lines plain = _lines text).
  { rewrite E. apply _lines_join, _lines_all_ok. }
  split; [done|]. split; [done|].
  split; [unfold parse_resume; by rewrite El|].
  split; [unfold parse_jd; by rewrite El|].
  unfold tailor_resume_text at 1. by rewrite tailor_lines_plain, El, E.
Qed.

Lemma nth_experience_line (lines : list (list N)) (k : nat) :
  (k < count_experience_lines lines)%nat ->
  exists i line,
    lines !! i = Some line /\ is_experience_line line = true
    /\ count_experience_lines (take i lines) = k.
Proof.
  revert k. induction lines as [|l lines IH]; intros k Hk.
  - unfold count_experience_lines in Hk. simpl in Hk. lia.
  - rewrite count_experience_lines_cons in Hk.
    destruct (is_experience_line l) eqn:Hl.
    + destruct k as [|k].
      * exists 0%nat, l. done.
      * destruct (IH k ltac:(lia)) as (i & line & Hi & He & Hc).
        exists (S i), line. split; [done|]. split; [done|].
        cbn [take]. rewrite count_experience_lines_cons, Hl, Hc. done.
    + destruct (IH k ltac:(lia)) as (i & line & Hi & He & Hc).
      exists (S i), line. split; [done|]. split; [done|].
      cbn [take]. rewrite count_experience_lines_cons, Hl, Hc. done.
Qed.

(** X16. No rewritten entry is lost: every entry of
    [rewritten_experience] stands in the output after "- ", in place of
    an experience line or in the block of leftover entries. *)
Theorem tailor_keeps_every_entry (text : list N) sg (r : list N) :
  r ∈ Suggestions.rewritten_experience sg ->
  (py "- " ++ r) ∈ fst (tailor_lines text sg).
Proof.
  intros Hr. apply list_elem_of_lookup in Hr as [k Hk].
  pose proof (lookup_lt_Some _ _ _ Hk) as Hklen.
  destruct (tailor_lines_shape text sg) as (body & Hlen & Hbody & E).
  rewrite E. cbn [fst]. rewrite !elem_of_app.
  destruct (Nat.lt_ge_cases k (count_experience_lines (_lines text)))
    as [Hlt|Hge].
  - right. left.
    destruct (nth_experience_line _ _ Hlt) as (i & line & Hi & He & Hc).
    specialize (Hbody i line Hi). cbv zeta in Hbody.
    rewrite Hc, He, (proj2 (Nat.ltb_lt _ _) Hklen), Hk in Hbody.
    by eapply list_elem_of_lookup_2.
  - right. right.
    rewrite (proj2 (Nat.ltb_lt _ _)) by lia.
    apply elem_of_app. right.
    apply list_elem_of_In, in_map, list_elem_of_In.
    apply list_elem_of_lookup.
    exists (k - count_experience_lines (_lines text))%nat.
    rewrite lookup_drop. by replace (_ + (k - _))%nat with k by lia.
Qed.

End TailoringMore.

(** X16, witness: two entries, one experience line. *)
Lemma tailor_keeps_every_entry_witness :
  (py "- " ++ py "Mentored 4 engineers")
  ∈ fst (@tailor_lines ascii_data
           (py "- built a thing" ++ 0x0A :: py "Education")
           (Suggestions.mk [] []
              [py "Built a thing used by 10 teams"; py "Mentored 4 engineers"])).
Proof.
  apply (@tailor_keeps_every_entry ascii_data).
  right. left.
Defined.

(** ** When the LLM wrapper raises *)

Section WrapperErrors.
Import Llm.
Variable json_dumps : json -> list N.
Variable requests_post : request -> post_result.

Lemma extract_candidate_object fields cf rest :
  get (py "candidates") fields = Some (JArray (JObject cf :: rest)) ->
  exists v, _extract_text_from_response json_dumps (JObject fields) = Return v.
Proof.
  intros Hc. unfold _extract_text_from_response. rewrite Hc.
  cbn [first_key key_in index].
  destruct (get (py "content") cf) as [v|]; [by eexists|].
  destruct (get (py "output") cf) as [v|]; [by eexists|].
  destruct (get (py "text") cf) as [v|]; [by eexists|].
  destruct (get (py "message") cf) as [m|]; [|by eexists].
  destruct m as [| | | | | |message]; try by eexists.
  destruct (get (py "content") message) as [v|].
  - destruct (truthy v).
    + destruct v; by eexists.
    + destruct (get (py "text") message) as [[]|]; by eexists.
  - destruct (get (py "text") message) as [[]|]; by eexists.
Qed.

Lemma extract_raises_iff resp_json e :
  _extract_text_from_response json_dumps resp_json = Raise e
  <-> e = TypeError /\ raising_response resp_json = true.
Proof.
  destruct resp_json as [| | | | | |fields];
    try (split; [discriminate|by intros [_ ?]]).
  unfold raising_response.
  destruct (get (py "candidates") fields) as [[| | | | |[|cand rest]|]|] eqn:Hc;
    try (unfold _extract_text_from_response; rewrite Hc;
         split; [discriminate|by intros [_ ?]]).
  destruct cand as [|b|z|f|s|items|cf].
  1-4: unfold _extract_text_from_response; rewrite Hc; simpl;
       split; [by intros [= <-]|by intros [-> _]].
  - unfold _extract_text_from_response. rewrite Hc.
    cbn [first_key key_in index raising_candidate CANDIDATE_KEYS existsb].
    destruct (contains (py "content") s), (contains (py "output") s),
      (contains (py "text") s), (contains (py "message") s); simpl;
      (split; [intros H; first [discriminate H|by injection H as <-]
              |intros [-> H]; first [discriminate H|done]]).
  - unfold _extract_text_from_response. rewrite Hc.
    cbn [first_key key_in index raising_candidate CANDIDATE_KEYS existsb].
    repeat match goal with
           | |- context [existsb ?f items] => destruct (existsb f items)
           end; simpl;
      (split; [intros H; first [discriminate H|by injection H as <-]
              |intros [-> H]; first [discriminate H|done]]).
  - destruct (extract_candidate_object fields cf rest Hc) as [v ->].
    split; [discriminate|by intros [_ ?]].
Qed.

End WrapperErrors.

Section WrapperRaises.
Import Llm.
Variable json_dumps : json -> list N.
Variable requests_post : request -> post_result.

(** X17. [_extract_text_from_response] raises exactly when the response
    is a dict whose ['candidates'] is a non-empty list and the first
    candidate is a null, a boolean, a number, a string holding one of
    "content", "output", "text", "message" as a substring, or a list
    holding one of them as an item; the exception is a [TypeError]. On
    every other value it returns. *)
Theorem extract_raises_exactly (resp_json : json) :
  (forall e,
     _extract_text_from_response json_dumps resp_json = Raise e
     <-> e = TypeError /\ raising_response resp_json = true)
  /\ (raising_response resp_json = false ->
      exists v, _extract_text_from_response json_dumps resp_json = Return v).
Proof.
  split; [intros e; apply extract_raises_iff|].
  intros Hno.
  destruct (_extract_text_from_response json_dumps resp_json) as [v|e] eqn:E;
    [by exists v|].
  apply extract_raises_iff in E as [_ E]. congruence.
Qed.

(** The two ways for [call_gemini_flash] to raise. *)
Lemma call_gemini_flash_raise_cases
    (prompt : list N) (api_key env_key : option (list N)) (model : list N)
    (max_output_tokens : Z) (temp : float) (e : exn) :
  call_gemini_flash json_dumps requests_post prompt api_key env_key model
                    max_output_tokens temp
  = Raise e
  <-> ((resolve_key api_key env_key = None
        \/ resolve_key api_key env_key = Some [])
       /\ e = RuntimeError (py "GOOGLE_API_KEY not provided"))
      \/ (exists key text resp_json,
            resolve_key api_key env_key = Some key /\ key <> []
            /\ requests_post
                 (build_request prompt key model max_output_tokens temp)
               = PostResponse 200 text (Some resp_json)
            /\ raising_response resp_json = true
            /\ e = TypeError).
Proof.
  unfold call_gemini_flash.
  destruct (resolve_key api_key env_key) as [[|c key]|] eqn:Hk.
  - split.
    + intros [= <-]. left. split; [by right|done].
    + intros [[_ ->]|(key & ? & ? & [= <-] & Hne & _)]; done.
  - destruct (requests_post _) as [err|status text [resp|]] eqn:Hp.
    + split; [discriminate|].
      intros [[[?|?] _]|(k & t & r & [= <-] & _ & Hp' & _)]; try done.
      rewrite Hp in Hp'. discriminate.
    + destruct (Z.eqb_spec status 200) as [->|Hst]; simpl.
      * rewrite extract_raises_iff. split.
        -- intros [-> Hr]. right. exists (c :: key), text, resp. done.
        -- intros [[[?|?] _]|(k & t & r & [= <-] & _ & Hp' & Hr & ->)];
             try done.
           rewrite Hp in Hp'. by injection Hp' as _ <-.
      * split; [discriminate|].
        intros [[[?|?] _]|(k & t & r & [= <-] & _ & Hp' & _)]; try done.
        rewrite Hp in Hp'. by injection Hp' as ? _ _.
    + destruct (Z.eqb_spec status 200) as [->|Hst]; simpl.
      * split; [discriminate|].
        intros [[[?|?] _]|(k & t & r & [= <-] & _ & Hp' & _)]; try done.
        rewrite Hp in Hp'. discriminate.
      * split; [discriminate|].
        intros [[[?|?] _]|(k & t & r & [= <-] & _ & Hp' & _)]; try done.
        rewrite Hp in Hp'. discriminate.
  - split.
    + intros [= <-]. left. split; [by left|done].
    + intros [[_ ->]|(key & ? & ? & ? & _)]; done.
Qed.

(** X18. [call_gemini_flash] raises in two cases only: a [RuntimeError]
    "GOOGLE_API_KEY not provided" exactly when neither the argument nor
    the environment gives a non-empty key, and a [TypeError] exactly when
    the service answers 200 with a JSON body on which the extractor
    raises. A transport failure, another status or an unparsable body
    never raises. *)
Theorem call_gemini_flash_raises_exactly
    (prompt : list N) (api_key env_key : option (list N)) (model : list N)
    (max_output_tokens : Z) (temp : float) (e : exn) :
  call_gemini_flash json_dumps requests_post prompt api_key env_key model
                    max_output_tokens temp
  = Raise e
  <-> ((resolve_key api_key env_key = None
        \/ resolve_key api_key env_key = Some [])
       /\ e = RuntimeError (py "GOOGLE_API_KEY not provided"))
      \/ (exists key text resp_json,
            resolve_key api_key env_key = Some key /\ key <> []
            /\ requests_post
                 (build_request prompt key model max_output_tokens temp)
               = PostResponse 200 text (Some resp_json)
            /\ raising_response resp_json = true
            /\ e = TypeError).
Proof. apply call_gemini_flash_raise_cases. Qed.

End WrapperRaises.

(** ** [str.replace] and the coaching prompt *)

Section Replace.
Implicit Types (old new s pre : list N).

Lemma after_prefix_app p s : after_prefix p (p ++ s) = Some s.
Proof. induction p as [|c p IH]; simpl; [done|]. by rewrite N.eqb_refl. Qed.

(** Characters other than the first of [old] are copied. *)
Lemma replace_go_copy o old new pre s :
  o ∉ pre ->
  replace_go (o :: old) new 0 (pre ++ s)
  = pre ++ replace_go (o :: old) new 0 s.
Proof.
  induction pre as [|c pre IH]; [done|].
  intros [Hc Hpre]%not_elem_of_cons. cbn [app replace_go].
  unfold startswith. cbn [after_prefix].
  rewrite (proj2 (N.eqb_neq o c)) by done. by rewrite IH.
Qed.

Lemma replace_go_skip old new t s :
  replace_go old new (length t) (t ++ s) = replace_go old new 0 s.
Proof. induction t as [|c t IH]; [done|]. apply IH. Qed.

(** An occurrence is replaced, and the scan goes on behind it. *)
Lemma replace_go_occurrence o old new s :
  replace_go (o :: old) new 0 ((o :: old) ++ s)
  = new ++ replace_go (o :: old) new 0 s.
Proof.
  cbn [app replace_go]. unfold startswith.
  change (o :: old ++ s) with ((o :: old) ++ s).
  rewrite after_prefix_app.
  replace (length (o :: old) - 1)%nat with (length old) by (simpl; lia).
  by rewrite replace_go_skip.
Qed.

Lemma replace_go_nil old new : replace_go old new 0 [] = [].
Proof. done. Qed.

Lemma COACHING_HEAD_parts :
  Catbot.COACHING_HEAD = COACHING_INTRO ++ py "{n}" ++ COACHING_RULES.
Proof. reflexivity. Qed.

Lemma not_elem_of_forallb (o : N) s :
  forallb (fun c => negb (c =? o)) s = true -> o ∉ s.
Proof.
  rewrite forallb_forall. intros H Hin.
  apply list_elem_of_In, H in Hin. by rewrite N.eqb_refl in Hin.
Qed.

(** The prompt for texts that hold the opening brace only in whole
    placeholders, given as the pieces between them. *)
Lemma build_prompt_pieces (jd_pieces : list (list N)) (resume_text : list N)
    (n_questions : Z) :
  Forall (fun p => 0x7B ∉ p) jd_pieces -> 0x7B ∉ resume_text ->
  Catbot._build_coaching_prompt (join (py "{n}") jd_pieces) resume_text
                                n_questions
  = COACHING_INTRO ++ str_of_Z n_questions ++ COACHING_RULES
    ++ join (str_of_Z n_questions) jd_pieces
    ++ Catbot.RESUME_LABEL ++ resume_text ++ Catbot.PROMPT_END.
Proof.
  intros Hjd Hres. unfold Catbot._build_coaching_prompt, replace.
  change (py "{n}") with (0x7B :: py "n}").
  change (replace_go (0x7B :: py "n}") (str_of_Z n_questions) 0 ?x)
    with (replace_go (0x7B :: py "n}") (str_of_Z n_questions) 0 x).
  rewrite COACHING_HEAD_parts. change (py "{n}") with (0x7B :: py "n}").
  rewrite <- !app_assoc.
  rewrite replace_go_copy by (by apply not_elem_of_forallb).
  rewrite replace_go_occurrence.
  rewrite replace_go_copy by (by apply not_elem_of_forallb).
  do 3 f_equal.
  assert (Htail : replace_go (0x7B :: py "n}") (str_of_Z n_questions) 0
                    (Catbot.RESUME_LABEL ++ resume_text ++ Catbot.PROMPT_END)
                  = Catbot.RESUME_LABEL ++ resume_text ++ Catbot.PROMPT_END).
  { rewrite <- (app_nil_r (Catbot.RESUME_LABEL ++ _)) at 1.
    rewrite replace_go_copy, replace_go_nil, app_nil_r; [done|].
    rewrite !not_elem_of_app. split; [|split]; [|done|];
      by apply not_elem_of_forallb. }
  induction Hjd as [|p [|p2 ps] Hp Hps IH].
  - exact Htail.
  - cbn [join]. by rewrite replace_go_copy, Htail.
  - change (join (0x7B :: py "n}") (p :: p2 :: ps))
      with (p ++ (0x7B :: py "n}") ++ join (0x7B :: py "n}") (p2 :: ps)).
    rewrite join_cons, <- !app_assoc.
    rewrite replace_go_copy by done. rewrite replace_go_occurrence.
    by rewrite IH.
Qed.

End Replace.

(** X19. When neither text holds an opening brace, the coaching prompt
    is the fixed instructions with the number of questions in place of
    the placeholder, followed by the job description, "RESUME:" and the
    resume, unchanged. *)
Theorem build_coaching_prompt_plain (jd_text resume_text : list N)
    (n_questions : Z) :
  0x7B ∉ jd_text -> 0x7B ∉ resume_text ->
  Catbot._build_coaching_prompt jd_text resume_text n_questions
  = COACHING_INTRO ++ str_of_Z n_questions ++ COACHING_RULES
    ++ jd_text ++ Catbot.RESUME_LABEL ++ resume_text ++ Catbot.PROMPT_END.
Proof.
  intros Hjd Hres.
  apply (build_prompt_pieces [jd_text] resume_text n_questions); [|done].
  by constructor.
Qed.

(** X20. The placeholder is replaced in the job description as well: a
    job description of pieces without braces, separated by placeholders,
    reaches the prompt with the number of questions in place of each of
    them. *)
Theorem build_coaching_prompt_rewrites_text (jd_pieces : list (list N))
    (resume_text : list N) (n_questions : Z) :
  Forall (fun p => 0x7B ∉ p) jd_pieces -> 0x7B ∉ resume_text ->
  Catbot._build_coaching_prompt (join (py "{n}") jd_pieces) resume_text
                                n_questions
  = COACHING_INTRO ++ str_of_Z n_questions ++ COACHING_RULES
    ++ join (str_of_Z n_questions) jd_pieces
    ++ Catbot.RESUME_LABEL ++ resume_text ++ Catbot.PROMPT_END.
Proof. apply build_prompt_pieces. Qed.

(** X19, witness. *)
Lemma build_coaching_prompt_plain_witness :
  Catbot._build_coaching_prompt (py "Data Engineer") (py "Built pipelines") 6
  = COACHING_INTRO ++ py "6" ++ COACHING_RULES
    ++ py "Data Engineer" ++ Catbot.RESUME_LABEL ++ py "Built pipelines"
    ++ Catbot.PROMPT_END.
Proof.
  apply (build_coaching_prompt_plain (py "Data Engineer")
           (py "Built pipelines") 6);
    by apply not_elem_of_forallb.
Defined.

(** X20, witness: the job description "Team of {n} people". *)
Lemma build_coaching_prompt_rewrites_text_witness :
  Catbot._build_coaching_prompt (py "Team of {n} people") (py "CV") 6
  = COACHING_INTRO ++ py "6" ++ COACHING_RULES
    ++ py "Team of 6 people" ++ Catbot.RESUME_LABEL ++ py "CV"
    ++ Catbot.PROMPT_END.
Proof.
  apply (build_coaching_prompt_rewrites_text
           [py "Team of "; py " people"] (py "CV") 6).
  - repeat constructor; by apply not_elem_of_forallb.
  - by apply not_elem_of_forallb.
Defined.

(** ** [coach_candidate] *)

Section CoachErrors.
Import Llm.
Variable json_dumps : json -> list N.
Variable requests_post : request -> post_result.

(** X21. [coach_candidate] raises a [RuntimeError] exactly when no
    non-empty key is at hand, and then with its own message, never the
    wrapper's. With a key it is the wrapper's call on the built prompt
    with that key; in particular a transport failure is returned as the
    coaching text, a string starting with the failure marker. *)
Theorem coach_candidate_errors (jd_text resume_text : list N) (n_questions : Z)
    (api_key env_key : option (list N)) (model : list N) :
  let out :=
    Catbot.coach_candidate json_dumps requests_post jd_text resume_text
                           n_questions api_key env_key model in
  let prompt := Catbot._build_coaching_prompt jd_text resume_text n_questions in
  (forall msg,
     out = Raise (RuntimeError msg)
     <-> msg = CATBOT_KEY_MESSAGE
         /\ (resolve_key api_key env_key = None
             \/ resolve_key api_key env_key = Some []))
  /\ (forall key,
        resolve_key api_key env_key = Some key -> key <> [] ->
        out = call_gemini_flash json_dumps requests_post prompt (Some key)
                                None model 1024 0.15%float
        /\ forall err,
             requests_post (build_request prompt key model 1024 0.15%float)
             = PostRaises err ->
             out = Return (JString (FAILURE_MARKER ++ py ": " ++ err))).
Proof.
  intros out prompt. subst out. unfold Catbot.coach_candidate. fold prompt.
  destruct (resolve_key api_key env_key) as [[|c key]|] eqn:Hk.
  - split; [|by intros key [= <-]].
    intros msg. split; [intros [= <-]; split; [done|by right]|by intros [-> _]].
  - split.
    + intros msg. split.
      * intros H. apply call_gemini_flash_raise_cases in H
          as [[[?|?] _]|(? & ? & ? & _ & _ & _ & _ & ?)]; done.
      * by intros [_ [?|?]].
    + intros key' [= <-] _. split; [done|].
      intros err Hp. unfold call_gemini_flash.
      change (resolve_key (Some (c :: key)) env_key) with (Some (c :: key)).
      cbv beta iota. by rewrite Hp.
  - split; [|by intros key [= <-]].
    intros msg. split; [intros [= <-]; split; [done|by left]|by intros [-> _]].
Qed.

End CoachErrors.

(** ** [main] of [scripts/cli.py] *)

Section CliMain.
Import Llm.
Context {U : UnicodeData}.
Variable json_dumps : json -> list N.
Variable requests_post : request -> post_result.

Lemma load_text_error (w : Cli.world) (p : list N) e :
  Cli.load_text w p = inl e -> exists x, e = Cli.External x.
Proof.
  unfold Cli.load_text.
  destruct (Cli.path_exists w p) as [x|[|]]; [intros [= <-]; eauto| |done].
  destruct (Cli.read_text w p) as [x|t]; [intros [= <-]; eauto|done].
Qed.

(** A run whose two texts load: the LLM step, then the write and the
    report. *)
Lemma main_loaded (w : Cli.world) (env_key : option (list N)) args
    (resume_text jd_text : list N) :
  Cli.load_text w (Cli.Args.resume args) = inr resume_text ->
  Cli.load_text w (Cli.Args.jd args) = inr jd_text ->
  Cli.main json_dumps requests_post w env_key (inr args)
  = match Cli.llm_tailored json_dumps requests_post env_key jd_text
            resume_text with
    | inl e =>
      {| Cli.write_call := None; Cli.printed := None; Cli.raised := Some e |}
    | inr tailored =>
      write_and_report w (Cli.Args.out args)
        match tailored with
        | Some ((_ :: _) as text) => text
        | _ => heuristic_text resume_text jd_text
        end
        resume_text jd_text
    end.
Proof.
  intros Hr Hj. unfold Cli.main. rewrite Hr, Hj.
  unfold write_and_report, report, heuristic_text.
  destruct (match_and_score (parse_resume resume_text) (parse_jd jd_text)).
  by destruct (Cli.llm_tailored _ _ _ _ _) as [|[[|]|]].
Qed.

Lemma write_and_report_call (w : Cli.world) (out text resume_text jd_text : list N) :
  Cli.write_call (write_and_report w out text resume_text jd_text)
  = Some (out, text).
Proof.
  unfold write_and_report. destruct (Cli.write_text w out text); [done|].
  destruct (Cli.resolve w out); [done|]. by destruct (Cli.print_json w _).
Qed.

(** What ends a run after the text is chosen is an exception of the
    file system or of [print]; the report is printed when there is none. *)
Lemma write_and_report_end (w : Cli.world) (out text resume_text jd_text : list N) :
  match Cli.raised (write_and_report w out text resume_text jd_text) with
  | Some e =>
    (exists x, e = Cli.External x)
    /\ Cli.printed (write_and_report w out text resume_text jd_text) = None
  | None =>
    exists path,
      Cli.resolve w out = inr path
      /\ Cli.printed (write_and_report w out text resume_text jd_text)
         = Some (report resume_text jd_text path)
  end.
Proof.
  unfold write_and_report. cbv zeta.
  destruct (Cli.write_text w out text);
    [cbn [Cli.raised Cli.printed]; by eauto|].
  destruct (Cli.resolve w out) as [|path];
    [cbn [Cli.raised Cli.printed]; by eauto|].
  destruct (Cli.print_json w _); cbn [Cli.raised Cli.printed];
    [by eauto|]. by exists path.
Qed.

(** What [llm_tailored] is when the key is set, by what the wrapper
    gives. *)
Lemma llm_tailored_with_key c key (resume_text jd_text : list N) :
  Cli.llm_tailored json_dumps requests_post (Some (c :: key)) jd_text resume_text
  = match call_gemini_flash json_dumps requests_post
            (Cli.tailor_prompt jd_text resume_text) None (Some (c :: key))
            DEFAULT_MODEL 1024 0.2%float with
    | Raise e => inl (Cli.Wrapper e)
    | Return (JString llm_out) =>
      inr (if cli_accepts llm_out then Some llm_out else None)
    | Return v => if truthy v then inl Cli.AttributeError else inr None
    end.
Proof. done. Qed.

(** The LLM step gives no text when the key is unset or empty, when the
    request cannot be sent, and on a status other than 200. *)
Lemma llm_tailored_none (env_key : option (list N)) (resume_text jd_text : list N) :
  env_key = None \/ env_key = Some []
  \/ (exists key,
        env_key = Some key /\ key <> []
        /\ ((exists err,
               requests_post
                 (build_request (Cli.tailor_prompt jd_text resume_text) key
                                DEFAULT_MODEL 1024 0.2%float)
               = PostRaises err)
            \/ (exists status_code text body,
                  requests_post
                    (build_request (Cli.tailor_prompt jd_text resume_text) key
                                   DEFAULT_MODEL 1024 0.2%float)
                  = PostResponse status_code text body
                  /\ status_code <> 200%Z))) ->
  Cli.llm_tailored json_dumps requests_post env_key jd_text resume_text
  = inr None.
Proof.
  intros [->|[->|(key & -> & Hne & H)]]; [done|done|].
  destruct key as [|c key]; [done|]. rewrite llm_tailored_with_key.
  unfold call_gemini_flash.
  change (resolve_key None (Some (c :: key))) with (Some (c :: key)).
  cbv beta iota.
  destruct H as [[err ->]|(st & text & body & -> & Hst)].
  - by rewrite cli_rejects_marker.
  - rewrite (proj2 (Z.eqb_neq _ _) Hst). cbn [negb].
    by rewrite cli_rejects_marker.
Qed.

(** The text chosen after the LLM step is the heuristic one, or a string
    the wrapper returned and the check of the CLI accepts. *)
Lemma llm_tailored_text (env_key : option (list N))
    (resume_text jd_text : list N) t :
  Cli.llm_tailored json_dumps requests_post env_key jd_text resume_text
  = inr t ->
  match t with
  | Some ((_ :: _) as text) => text
  | _ => heuristic_text resume_text jd_text
  end = heuristic_text resume_text jd_text
  \/ (exists text,
        match t with
        | Some ((_ :: _) as text) => text
        | _ => heuristic_text resume_text jd_text
        end = text
        /\ cli_accepts text = true
        /\ call_gemini_flash json_dumps requests_post
             (Cli.tailor_prompt jd_text resume_text) None env_key
             DEFAULT_MODEL 1024 0.2%float
           = Return (JString text)).
Proof.
  destruct env_key as [[|c key]|]; [intros [= <-]; by left| |intros [= <-]; by left].
  rewrite llm_tailored_with_key.
  destruct (call_gemini_flash _ _ _ _ _ _ _ _) as [v|e]; [|done].
  destruct v as [|b|z|f|s|items|fields];
    try (destruct (truthy _); [done|intros [= <-]; by left]).
  destruct (cli_accepts s) eqn:Ha; [|intros [= <-]; by left].
  intros [= <-]. destruct s as [|c' s]; [done|]. right. by exists (c' :: s).
Qed.

(** X22. In a run of [main] whose two texts load, the text written to
    [args.out] is the heuristic one, and the run goes on to the report,
    when [GOOGLE_API_KEY] is unset or empty, when the request cannot be
    sent, and when the service answers with a status other than 200. *)
Theorem cli_main_falls_back (w : Cli.world) (env_key : option (list N)) args
    (resume_text jd_text : list N) :
  Cli.load_text w (Cli.Args.resume args) = inr resume_text ->
  Cli.load_text w (Cli.Args.jd args) = inr jd_text ->
  env_key = None \/ env_key = Some []
  \/ (exists key,
        env_key = Some key /\ key <> []
        /\ ((exists err,
               requests_post
                 (build_request (Cli.tailor_prompt jd_text resume_text) key
                                DEFAULT_MODEL 1024 0.2%float)
               = PostRaises err)
            \/ (exists status_code text body,
                  requests_post
                    (build_request (Cli.tailor_prompt jd_text resume_text) key
                                   DEFAULT_MODEL 1024 0.2%float)
                  = PostResponse status_code text body
                  /\ status_code <> 200%Z))) ->
  Cli.main json_dumps requests_post w env_key (inr args)
  = write_and_report w (Cli.Args.out args) (heuristic_text resume_text jd_text)
                     resume_text jd_text
  /\ Cli.write_call (Cli.main json_dumps requests_post w env_key (inr args))
     = Some (Cli.Args.out args,
             tailor_resume_text resume_text
               (suggest_resume_updates (parse_resume resume_text)
                                       (parse_jd jd_text) 6)).
Proof.
  intros Hr Hj H.
  rewrite (main_loaded w env_key args resume_text jd_text Hr Hj).
  rewrite (llm_tailored_none env_key resume_text jd_text H).
  split; [done|]. by rewrite write_and_report_call.
Qed.

(** X23. In a run of [main] whose two texts load, with the key set and
    a string returned by the wrapper, the text written to [args.out] is
    that string exactly when it is not empty, does not start with the
    failure marker and holds no "failed" in any letter case; otherwise
    it is the heuristic text. The run then goes on to the report, which
    holds nothing of the answer. *)
Theorem cli_main_keeps_accepted_text (w : Cli.world) args
    (key resume_text jd_text llm_out : list N) :
  Cli.load_text w (Cli.Args.resume args) = inr resume_text ->
  Cli.load_text w (Cli.Args.jd args) = inr jd_text ->
  key <> [] ->
  call_gemini_flash json_dumps requests_post
    (Cli.tailor_prompt jd_text resume_text) None (Some key)
    DEFAULT_MODEL 1024 0.2%float
  = Return (JString llm_out) ->
  let chosen :=
    if nonempty llm_out
       && negb (startswith (py "LLM request failed") llm_out)
       && negb (contains (py "failed") (lower llm_out))
    then llm_out
    else tailor_resume_text resume_text
           (suggest_resume_updates (parse_resume resume_text)
                                   (parse_jd jd_text) 6) in
  Cli.main json_dumps requests_post w (Some key) (inr args)
  = write_and_report w (Cli.Args.out args) chosen resume_text jd_text
  /\ Cli.write_call (Cli.main json_dumps requests_post w (Some key) (inr args))
     = Some (Cli.Args.out args, chosen).
Proof.
  intros Hr Hj Hne Hcall chosen. destruct key as [|c key]; [done|].
  rewrite (main_loaded w _ args resume_text jd_text Hr Hj).
  rewrite llm_tailored_with_key, Hcall.
  assert (E : match (if cli_accepts llm_out then Some llm_out else None) with
              | Some ((_ :: _) as text) => text
              | _ => heuristic_text resume_text jd_text
              end = chosen).
  { subst chosen. change (py "LLM request failed") with FAILURE_MARKER.
    fold (cli_accepts llm_out). fold (heuristic_text resume_text jd_text).
    destruct (cli_accepts llm_out) eqn:Ha; [|done]. by destruct llm_out. }
  rewrite E. split; [done|]. by rewrite write_and_report_call.
Qed.

(** X24. How a run of [main] can end. With the wrapper's exception it
    ends only by a [TypeError], never by its [RuntimeError]; that and
    the [AttributeError] need the key to be set, and nothing is written
    before them. A [SystemExit] is the one of [parse_args]. Every other
    exception is one of the file system or of [print], and then nothing
    is printed. A run that ends normally has loaded both texts, called
    [write_text] on [args.out] with the heuristic text or with a string
    of the wrapper that passes the check, and printed the report of the
    heuristic pipeline for the resolved path. *)
Theorem cli_main_outcomes (w : Cli.world) (env_key : option (list N))
    (argv : Z + Cli.Args.t) :
  let r := Cli.main json_dumps requests_post w env_key argv in
  match Cli.raised r with
  | Some (Cli.SystemExit code) => argv = inl code /\ Cli.write_call r = None
  | Some (Cli.Wrapper e) =>
    e = TypeError /\ (exists c key, env_key = Some (c :: key))
    /\ Cli.write_call r = None
  | Some Cli.AttributeError =>
    (exists c key, env_key = Some (c :: key)) /\ Cli.write_call r = None
  | Some (Cli.External _) => Cli.printed r = None
  | None =>
    exists args resume_text jd_text text path,
      argv = inr args
      /\ Cli.load_text w (Cli.Args.resume args) = inr resume_text
      /\ Cli.load_text w (Cli.Args.jd args) = inr jd_text
      /\ Cli.write_call r = Some (Cli.Args.out args, text)
      /\ (text = tailor_resume_text resume_text
                   (suggest_resume_updates (parse_resume resume_text)
                                           (parse_jd jd_text) 6)
          \/ (nonempty text
                && negb (startswith (py "LLM request failed") text)
                && negb (contains (py "failed") (lower text)) = true
              /\ call_gemini_flash json_dumps requests_post
                   (Cli.tailor_prompt jd_text resume_text) None env_key
                   DEFAULT_MODEL 1024 0.2%float
                 = Return (JString text)))
      /\ Cli.resolve w (Cli.Args.out args) = inr path
      /\ Cli.printed r = Some (report resume_text jd_text path)
  end.
Proof.
  intros r. subst r. destruct argv as [code|args]; [done|].
  destruct (Cli.load_text w (Cli.Args.resume args)) as [e|resume_text] eqn:Hr.
  { unfold Cli.main. rewrite Hr.
    by apply load_text_error in Hr as [x ->]. }
  destruct (Cli.load_text w (Cli.Args.jd args)) as [e|jd_text] eqn:Hj.
  { unfold Cli.main. rewrite Hr, Hj.
    by apply load_text_error in Hj as [x ->]. }
  rewrite (main_loaded w env_key args resume_text jd_text Hr Hj).
  destruct (Cli.llm_tailored _ _ _ _ _) as [err|t] eqn:E.
  - destruct env_key as [[|c key]|]; try discriminate.
    rewrite llm_tailored_with_key in E. cbn [Cli.raised Cli.write_call].
    destruct (call_gemini_flash _ _ _ _ _ _ _ _) as [v|e] eqn:Hcall.
    + assert (err = Cli.AttributeError) as ->; [|by eauto].
      destruct v as [|b|z|f|s|items|fields]; cbn [truthy] in E;
        try discriminate E.
      * destruct b; [by injection E as <-|discriminate E].
      * destruct (negb (z =? 0)%Z); [by injection E as <-|discriminate E].
      * destruct (negb (PrimFloat.eqb f 0)); [by injection E as <-|discriminate E].
      * destruct items; [discriminate E|by injection E as <-].
      * destruct fields; [discriminate E|by injection E as <-].
    + injection E as <-.
      apply call_gemini_flash_raise_cases in Hcall
        as [[[?|?] _]|(? & ? & ? & _ & _ & _ & _ & ->)]; try done.
      by eauto.
  - pose proof (write_and_report_end w (Cli.Args.out args)
                  match t with
                  | Some ((_ :: _) as text) => text
                  | _ => heuristic_text resume_text jd_text
                  end resume_text jd_text) as Hend.
    pose proof (write_and_report_call w (Cli.Args.out args)
                  match t with
                  | Some ((_ :: _) as text) => text
                  | _ => heuristic_text resume_text jd_text
                  end resume_text jd_text) as Hcallw.
    destruct (Cli.raised (write_and_report _ _ _ _ _)) as [e|].
    + by destruct Hend as [[x ->] ?].
    + destruct Hend as (path & Hpath & Hprinted).
      eexists args, resume_text, jd_text, _, path.
      do 3 (split; [done|]). split; [exact Hcallw|]. split; [|done].
      destruct (llm_tailored_text _ _ _ _ E) as [->|(text & -> & Ha & Hc)];
        [by left|by right].
Qed.

(** X25. In a run of [main] whose two texts load, when the service
    answers 200 with a JSON body whose first candidate is a dict that
    binds 'content' to a truthy value that is no string (a dict of
    parts, say), the run ends with [AttributeError] before anything is
    written: the value is returned by the wrapper as it is and [main]
    calls [startswith] on it. *)
Theorem cli_main_attribute_error (w : Cli.world) args
    (key resume_text jd_text text : list N) fields cf rest (v : json) :
  Cli.load_text w (Cli.Args.resume args) = inr resume_text ->
  Cli.load_text w (Cli.Args.jd args) = inr jd_text ->
  key <> [] ->
  requests_post
    (build_request (Cli.tailor_prompt jd_text resume_text) key
                   DEFAULT_MODEL 1024 0.2%float)
  = PostResponse 200 text (Some (JObject fields)) ->
  get (py "candidates") fields = Some (JArray (JObject cf :: rest)) ->
  get (py "content") cf = Some v ->
  truthy v = true ->
  (forall s, v <> JString s) ->
  Cli.main json_dumps requests_post w (Some key) (inr args)
  = {| Cli.write_call := None; Cli.printed := None;
       Cli.raised := Some Cli.AttributeError |}.
Proof.
  intros Hr Hj Hne Hp Hc Hv Ht Hs. destruct key as [|c key]; [done|].
  rewrite (main_loaded w _ args resume_text jd_text Hr Hj).
  rewrite llm_tailored_with_key.
  unfold call_gemini_flash.
  change (resolve_key None (Some (c :: key))) with (Some (c :: key)).
  cbv beta iota. rewrite Hp. cbn [Z.eqb Pos.eqb negb].
  unfold _extract_text_from_response. rewrite Hc.
  cbn [first_key key_in index]. rewrite Hv.
  destruct v; try (by rewrite Ht). by destruct (Hs s).
Qed.

End CliMain.

(** X22, witness: the resume is read from a file and the request cannot
    be sent. *)
Lemma cli_main_falls_back_witness :
  Cli.write_call
    (@Cli.main ascii_data (fun _ => [])
       (fun _ => Llm.PostRaises (py "timed out"))
       (one_file_world (py "Built pipelines")) (Some (py "k"))
       (inr (Cli.Args.mk (py "resume.txt") (py "Data Engineer")
                         (py "tailored_resume.txt"))))
  = Some (py "tailored_resume.txt",
          @tailor_resume_text ascii_data (py "Built pipelines")
            (@suggest_resume_updates ascii_data
               (@parse_resume ascii_data (py "Built pipelines"))
               (@parse_jd ascii_data (py "Data Engineer")) 6)).
Proof.
  apply (@cli_main_falls_back ascii_data (fun _ => [])
           (fun _ => Llm.PostRaises (py "timed out"))
           (one_file_world (py "Built pipelines")) (Some (py "k"))
           (Cli.Args.mk (py "resume.txt") (py "Data Engineer")
                        (py "tailored_resume.txt"))
           (py "Built pipelines") (py "Data Engineer"));
    [reflexivity|reflexivity|].
  right. right. exists (py "k"). split; [done|]. split; [done|].
  left. by exists (py "timed out").
Defined.

(** X23, witness: an answer that mentions "Failed" is discarded. *)
Lemma cli_main_keeps_accepted_text_witness :
  Cli.write_call
    (@Cli.main ascii_data (fun _ => [])
       (fun _ => Llm.PostResponse 200 (py "Never Failed a deadline") None)
       (one_file_world (py "Built pipelines")) (Some (py "k"))
       (inr (Cli.Args.mk (py "resume.txt") (py "Data Engineer")
                         (py "tailored_resume.txt"))))
  = Some (py "tailored_resume.txt",
          @tailor_resume_text ascii_data (py "Built pipelines")
            (@suggest_resume_updates ascii_data
               (@parse_resume ascii_data (py "Built pipelines"))
               (@parse_jd ascii_data (py "Data Engineer")) 6)).
Proof.
  apply (@cli_main_keeps_accepted_text ascii_data (fun _ => [])
           (fun _ => Llm.PostResponse 200 (py "Never Failed a deadline") None)
           (one_file_world (py "Built pipelines"))
           (Cli.Args.mk (py "resume.txt") (py "Data Engineer")
                        (py "tailored_resume.txt"))
           (py "k") (py "Built pipelines") (py "Data Engineer")
           (py "Never Failed a deadline")); done.
Defined.

(** X25, witness: an answer in the shape of the service's own. *)
Lemma cli_main_attribute_error_witness :
  @Cli.main ascii_data (fun _ => [])
    (fun _ =>
       Llm.PostResponse 200 (py "{...}")
         (Some (Llm.JObject
                  [(py "candidates",
                    Llm.JArray
                      [Llm.JObject
                         [(py "content",
                           Llm.JObject
                             [(py "parts",
                               Llm.JArray
                                 [Llm.JObject
                                    [(py "text", Llm.JString (py "Tailored"))]])])]])])))
    (one_file_world (py "Built pipelines")) (Some (py "k"))
    (inr (Cli.Args.mk (py "resume.txt") (py "Data Engineer")
                      (py "tailored_resume.txt")))
  = {| Cli.write_call := None; Cli.printed := None;
       Cli.raised := Some Cli.AttributeError |}.
Proof.
  eapply (@cli_main_attribute_error ascii_data); try done.
Defined.
